(** * repotest: a shallow embedding of [repotest.go]

    The program locates a [go.work] file by walking from the current
    directory towards the root, reads the member directories of its
    [use ( ... )] block, runs [go test -json] for every member in its own
    goroutine, and prints a sorted summary.

    Go strings are byte strings: they are modelled as [string] (one [ascii]
    per byte).  Go's [int] is modelled as [Z]; every integer the program
    computes is a length or a small difference of lengths, so no
    wrap-around can occur.  A nil slice and an empty slice are both the
    empty list (the program only ever tests [len]).

    Functions of Go's standard library that the program calls are modelled
    in the modules [strings], [bufio] and [filepath] below (for a Unix
    target: separator [/], no volume names).  Functions whose behaviour is
    outside of the scope of the development (Unicode tables, floating-point
    formatting, the test-output analyzer, the sorting algorithm, the
    subprocess) are parameters of the section [Repotest]. *)

From Stdlib Require Import String Ascii List ZArith Lia Bool Arith.
From Stdlib Require Import Permutation Sorted Relations Wf_nat DecimalString.
Import ListNotations.
Open Scope string_scope.

(** ** Results of fallible library calls *)

(** A Go call returning [(T, error)]: either a value or an error, the
    latter represented by its message. *)
Inductive result (A : Type) : Type :=
| Ok (a : A)
| Err (e : string).
Arguments Ok {A} a.
Arguments Err {A} e.

(** ** Package [strings] *)

Module strings.

(** [strings.HasPrefix(s, prefix)]. *)
Fixpoint HasPrefix (s prefix : string) : bool :=
  match prefix, s with
  | EmptyString, _ => true
  | String _ _, EmptyString => false
  | String c p, String d s' => Ascii.eqb c d && HasPrefix s' p
  end.

(** [strings.Contains(s, substr)]: some suffix of [s] starts with
    [substr]. *)
Fixpoint Contains (s substr : string) : bool :=
  HasPrefix s substr
  || match s with
     | EmptyString => false
     | String _ s' => Contains s' substr
     end.

(** [strings.Count(s, sep)] for a one-byte separator. *)
Fixpoint CountByte (s : string) (c : ascii) : nat :=
  match s with
  | EmptyString => O
  | String d s' => (if Ascii.eqb d c then 1 else 0) + CountByte s' c
  end.

Fixpoint repeat_nat (s : string) (n : nat) : string :=
  match n with
  | O => EmptyString
  | S n' => s ++ repeat_nat s n'
  end.

(** [strings.Repeat(s, count)] panics when [count] is negative
    ([None]); otherwise it returns [count] copies of [s]. *)
Definition Repeat (s : string) (count : Z) : option string :=
  if (count <? 0)%Z then None else Some (repeat_nat s (Z.to_nat count)).

(** [strings.Join(elems, sep)]. *)
Fixpoint Join (elems : list string) (sep : string) : string :=
  match elems with
  | [] => EmptyString
  | [e] => e
  | e :: es => e ++ sep ++ Join es sep
  end.

(** Go's [<] on strings: byte-wise lexicographic order. *)
Fixpoint ltb (a b : string) : bool :=
  match a, b with
  | _, EmptyString => false
  | EmptyString, String _ _ => true
  | String c a', String d b' =>
      (nat_of_ascii c <? nat_of_ascii d)%nat
      || (Ascii.eqb c d && ltb a' b')
  end.

(** [len(s)] as a Go [int]. *)
Definition len (s : string) : Z := Z.of_nat (String.length s).

End strings.

(** ** Package [bufio]: a [Scanner] with the default [ScanLines] split *)

Module bufio.

Definition LF : ascii := ascii_of_nat 10.
Definition CR : ascii := ascii_of_nat 13.

(** The lines of the input as the scanner cuts them: each ends at a line
    feed or at the end of the input; a final empty line is not a line. *)
Fixpoint rawLines (s : string) : list string :=
  match s with
  | EmptyString => []
  | String c s' =>
      if Ascii.eqb c LF then EmptyString :: rawLines s'
      else match rawLines s' with
           | [] => [String c EmptyString]
           | l :: ls => String c l :: ls
           end
  end.

(** [dropCR]: one trailing carriage return is removed from a line. *)
Fixpoint dropCR (s : string) : string :=
  match s with
  | EmptyString => EmptyString
  | String c EmptyString => if Ascii.eqb c CR then EmptyString else s
  | String c s' => String c (dropCR s')
  end.

(** The tokens [scanner.Text()] yields, in order. *)
Definition ScanLines (s : string) : list string := map dropCR (rawLines s).

(** [bufio.MaxScanTokenSize]: a line that does not fit the buffer stops
    the scan with [ErrTooLong]. *)
Definition MaxScanTokenSize : Z := 65536.

Definition tooLong (s : string) : bool :=
  existsb (fun l => (MaxScanTokenSize <=? strings.len l)%Z) (rawLines s).

Definition ErrTooLong : string := "bufio.Scanner: token too long".

End bufio.

(** ** Package [path/filepath] on Unix *)

Module filepath.

Definition Separator : ascii := "/"%char.

(** [strings.Split(s, "/")]: the elements between separators; never
    empty. *)
Fixpoint splitSep (s : string) : list string :=
  match s with
  | EmptyString => [EmptyString]
  | String c s' =>
      if Ascii.eqb c Separator then EmptyString :: splitSep s'
      else match splitSep s' with
           | [] => [String c EmptyString]
           | e :: es => String c e :: es
           end
  end.

Definition isRooted (s : string) : bool :=
  match s with
  | String c _ => Ascii.eqb c Separator
  | EmptyString => false
  end.

(** One element of the path read by [Clean]; [out] is the output buffer
    as the list of elements written so far, last first.  An empty element
    and [.] are skipped; [..] removes the last element written unless there
    is none to remove (the buffer is empty or ends in [..]), in which case
    it is dropped on a rooted path and written otherwise; any other element
    is written. *)
Definition cleanStep (rooted : bool) (out : list string) (e : string)
  : list string :=
  if String.eqb e "" || String.eqb e "." then out
  else if String.eqb e ".." then
    match out with
    | top :: rest =>
        if String.eqb top ".." then e :: out else rest
    | [] => if rooted then out else [e]
    end
  else e :: out.

(** [filepath.Clean(path)]. *)
Definition Clean (path : string) : string :=
  if String.eqb path "" then "."
  else
    let rooted := isRooted path in
    let out := fold_left (cleanStep rooted) (splitSep path) [] in
    if rooted then String Separator (strings.Join (rev out) "/")
    else match out with
         | [] => "."
         | _ => strings.Join (rev out) "/"
         end.

(** [filepath.Join(a, b)]: the elements from the first non-empty one on,
    separated by [/], then cleaned; the empty string when both are
    empty. *)
Definition Join (a b : string) : string :=
  if negb (String.eqb a "") then Clean (a ++ "/" ++ b)
  else if negb (String.eqb b "") then Clean b
  else "".

(** The part of [path] up to and including its last separator. *)
Fixpoint dirPart (path : string) : string :=
  match path with
  | EmptyString => EmptyString
  | String c s' =>
      if strings.Contains path "/" then String c (dirPart s')
      else EmptyString
  end.

(** [filepath.Dir(path)]. *)
Definition Dir (path : string) : string := Clean (dirPart path).

(** [cutSep s]: the element of [s] before its first separator and what
    follows that separator (nothing when there is none). *)
Fixpoint cutSep (s : string) : string * string :=
  match s with
  | EmptyString => (EmptyString, EmptyString)
  | String c s' =>
      if Ascii.eqb c Separator then (EmptyString, s')
      else let (e, r) := cutSep s' in (String c e, r)
  end.

(** The loop of [Rel] that positions both paths at their first differing
    elements.  It returns the differing element of [base] (empty when the
    loop ran to the end of one path) and what is left of both paths. *)
Fixpoint relLoop (fuel : nat) (base targ : string)
  : string * string * string :=
  match fuel with
  | O => (EmptyString, base, targ)
  | S fuel' =>
      if String.eqb base "" || String.eqb targ "" then
        (EmptyString, base, targ)
      else
        let (eb, rb) := cutSep base in
        let (et, rt) := cutSep targ in
        if String.eqb et eb then relLoop fuel' rb rt
        else (eb, base, targ)
  end.

(** [filepath.Rel(basepath, targpath)]. *)
Definition Rel (basepath targpath : string) : result string :=
  let base := Clean basepath in
  let targ := Clean targpath in
  if String.eqb targ base then Ok "."
  else
    let base := if String.eqb base "." then "" else base in
    if negb (Bool.eqb (isRooted base) (isRooted targ)) then
      Err ("Rel: can't make " ++ targpath ++ " relative to " ++ basepath)
    else
      let '(eb, rb, rt) := relLoop (String.length base) base targ in
      if String.eqb eb ".." then
        Err ("Rel: can't make " ++ targpath ++ " relative to " ++ basepath)
      else if negb (String.eqb rb "") then
        let seps := strings.CountByte rb Separator in
        Ok (".." ++ strings.repeat_nat "/.." seps
                 ++ (if negb (String.eqb rt "") then "/" ++ rt else ""))
      else Ok rt.

End filepath.

(** ** The world outside the program *)

(** An opened file: its bytes, the error, if any, that reading it ends
    with, and the error, if any, of closing it. *)
Record File : Type := mkFile {
  fileData : string;
  fileReadErr : option string;
  fileCloseErr : option string
}.

(** The file system as the program observes it: [os.Getwd], [os.ReadDir]
    (the names of the entries of a directory) and [os.Open]. *)
Record FS : Type := mkFS {
  Getwd : result string;
  ReadDir : string -> result (list string);
  Open : string -> result File
}.

(** How a call ends: it returns, or the goroutine panics (which ends the
    process). *)
Inductive outcome (A : Type) : Type :=
| Returned (a : A)
| Panicked (msg : string).
Arguments Returned {A} a.
Arguments Panicked {A} msg.

(** A computation that writes to standard output and may panic: the text
    written, and how it ended. *)
Definition IO (A : Type) : Type := (string * outcome A)%type.

Definition ret {A} (a : A) : IO A := (EmptyString, Returned a).

Definition bind {A B} (m : IO A) (k : A -> IO B) : IO B :=
  match m with
  | (o, Returned a) => let (o', r) := k a in (o ++ o', r)
  | (o, Panicked msg) => (o, Panicked msg)
  end.

Definition print (s : string) : IO unit := (s, Returned tt).

Definition panic {A} (msg : string) : IO A := (EmptyString, Panicked msg).

Notation "m ;; k" := (bind m (fun _ => k))
  (at level 61, right associativity).

(** [for _, x := range xs { body(x) }]. *)
Fixpoint forEach {A} (body : A -> IO unit) (xs : list A) : IO unit :=
  match xs with
  | [] => ret tt
  | x :: xs' => body x ;; forEach body xs'
  end.

(** ** Formatting verbs of [fmt.Printf] used by the program *)

Module fmt.

Definition spaces (n : Z) : string := strings.repeat_nat " " (Z.to_nat n).

(** [%d]: decimal, with a minus sign when negative. *)
Definition d (n : Z) : string :=
  DecimalString.NilZero.string_of_int (Z.to_int n).

(** Padding to a width: on the left, or on the right with the minus
    flag; [count] is the number of runes of [s]. *)
Definition pad (wid : Z) (minus : bool) (count : Z) (s : string) : string :=
  let n := (wid - count)%Z in
  if (n <=? 0)%Z then s
  else if minus then s ++ spaces n else spaces n ++ s.

(** [%3d]. *)
Definition d3 (n : Z) : string := pad 3 false (strings.len (d n)) (d n).

(** [%*s]: the width is an argument; a negative width sets the minus
    flag, a width beyond a million is refused. *)
Definition star_s (count : string -> Z) (wid : Z) (s : string) : string :=
  if (1000000 <? wid)%Z || (wid <? -1000000)%Z then "%!(BADWIDTH)" ++ s
  else if (wid <? 0)%Z then pad (- wid) true (count s) s
  else pad wid false (count s) s.

End fmt.

(** ** Constants of the program *)

Definition ESC : string := String (ascii_of_nat 27) EmptyString.
Definition NL : string := String bufio.LF EmptyString.

Definition colorRed : string := ESC ++ "[31m".
Definition colorGreen : string := ESC ++ "[32m".
Definition colorYellow : string := ESC ++ "[33m".
Definition colorBlue : string := ESC ++ "[34m".
Definition colorReset : string := ESC ++ "[0m".

Definition iconSuccess : string := colorGreen ++ "✓" ++ colorReset.
Definition iconFailure : string := colorRed ++ "✖" ++ colorReset.
Definition iconSkipped : string := colorYellow ++ "∅" ++ colorReset.

Definition workFile : string := "go.work".

(** ** The record of the program *)

(** [type testAnalysis struct], over the type of the analyzer's
    [*testjson.Execution]. *)
Record testAnalysis (Execution : Type) : Type := mkTestAnalysis {
  testExec : Execution;
  label : string
}.
Arguments mkTestAnalysis {Execution} testExec label.
Arguments testExec {Execution} t.
Arguments label {Execution} t.

(** ** Sample instances of the external functions

    Small executable stand-ins for the functions the development is
    parametric in; the examples at the end are evaluated with them.  The
    string functions agree with the real ones on ASCII text; the analyzer
    is a toy one (its events are the words [pass], [fail] and [error]),
    which like the real one rejects a line that is no event. *)

Module Sample.

Definition isSpace (c : ascii) : bool :=
  let n := nat_of_ascii c in
  ((9 <=? n) && (n <=? 13) || (n =? 32))%nat.

Fixpoint trimLeft (s : string) : string :=
  match s with
  | String c s' => if isSpace c then trimLeft s' else s
  | EmptyString => EmptyString
  end.

Fixpoint trimRight (s : string) : string :=
  match s with
  | EmptyString => EmptyString
  | String c s' =>
      match trimRight s' with
      | EmptyString => if isSpace c then EmptyString else String c EmptyString
      | t => String c t
      end
  end.

(** [strings.TrimSpace] on ASCII text. *)
Definition TrimSpace (s : string) : string := trimRight (trimLeft s).

(** [utf8.RuneCountInString] on ASCII text. *)
Definition RuneCountInString (s : string) : Z := strings.len s.

(** What the analyzer keeps of a run. *)
Record Exec : Type := mkExec {
  total : Z;
  errors : list string;
  failed : list string;
  elapsed : Z
}.

(** A toy analyzer: every line of the output is one event, [pass],
    [fail] or [error]; any other line is a parse error. *)
Fixpoint scanEvents (events : list string) (e : Exec) : result Exec :=
  match events with
  | [] => Ok e
  | ev :: evs =>
      if String.eqb ev "pass" then
        scanEvents evs (mkExec (total e + 1) (errors e) (failed e) (elapsed e))
      else if String.eqb ev "fail" then
        scanEvents evs
          (mkExec (total e + 1) (errors e) (failed e ++ [ev]) (elapsed e))
      else if String.eqb ev "error" then
        scanEvents evs
          (mkExec (total e) (errors e ++ [ev]) (failed e) (elapsed e))
      else Err ("failed to parse test output: " ++ ev)
  end.

Definition ScanTestOutput (output : string) : result Exec :=
  scanEvents (bufio.ScanLines output) (mkExec 0 [] [] 0).

Definition FormatDurationAsSeconds (dur prec : Z) : string :=
  fmt.d (dur / 1000000000) ++ "s".

Definition PrintSummary (e : Exec) : string :=
  "DONE " ++ fmt.d (total e) ++ " tests" ++ String bufio.LF EmptyString.

(** Insertion sort, standing for [sort.Slice]. *)
Fixpoint insert {A} (less : A -> A -> bool) (x : A) (l : list A) : list A :=
  match l with
  | [] => [x]
  | y :: l' => if less x y then x :: l else y :: insert less x l'
  end.

Fixpoint sort {A} (less : A -> A -> bool) (l : list A) : list A :=
  match l with
  | [] => []
  | x :: l' => insert less x (sort less l')
  end.

End Sample.

(** ** Sample inputs *)

Module Example.

Fixpoint lookup {A : Type} (k : string) (l : list (string * A)) : option A :=
  match l with
  | [] => None
  | (k', v) :: l' => if String.eqb k k' then Some v else lookup k l'
  end.

(** A file system with the current directory [cwd], the directories
    [dirs] and the readable files [files]. *)
Definition fileSystem (cwd : string) (dirs : list (string * list string))
  (files : list (string * string)) : FS :=
  mkFS (Ok cwd)
    (fun d =>
       match lookup d dirs with
       | Some entries => Ok entries
       | None => Err ("open " ++ d ++ ": no such file or directory")
       end)
    (fun f =>
       match lookup f files with
       | Some data => Ok (mkFile data None None)
       | None => Err ("open " ++ f ++ ": no such file or directory")
       end).

(** A workspace file with two members and a blank line between them. *)
Definition goWork : string :=
  "go 1.18" ++ NL ++ NL ++ "use (" ++ NL ++ "  ./pkgA" ++ NL ++ NL
  ++ "  ./pkgB" ++ NL ++ ")" ++ NL.

(** A workspace file with a member whose name has parentheses. *)
Definition goWorkParen : string :=
  "use (" ++ NL ++ "  ./a" ++ NL ++ "  ./b(c)" ++ NL ++ ")" ++ NL.

(** A workspace file without a block. *)
Definition goWorkNoBlock : string := "go 1.18" ++ NL.

(** The workspace [/w], seen from [/w/pkgA]. *)
Definition fsWorkspace : FS :=
  fileSystem "/w/pkgA"
    [("/w/pkgA", ["a.go"; "a_test.go"]); ("/w", ["go.work"; "pkgA"; "pkgB"]);
     ("/", ["w"])]
    [("/w/go.work", goWork)].

Definition fsParen : FS :=
  fileSystem "/w" [("/w", ["go.work"; "a"; "b(c)"]); ("/", ["w"])]
    [("/w/go.work", goWorkParen)].

Definition fsNoBlock : FS :=
  fileSystem "/w" [("/w", ["go.work"]); ("/", ["w"])]
    [("/w/go.work", goWorkNoBlock)].

(** The workspace file is in the root directory and the current directory
    is [/a]. *)
Definition fsRoot : FS :=
  fileSystem "/a" [("/a", ["main.go"]); ("/", ["a"; "go.work"])]
    [("/go.work", goWork)].

(** The subprocess: the tests of [pkgA] pass, one test of [pkgB] fails
    (the subprocess exits with an error), and what is run in [broken]
    writes a line that is no event. *)
Definition goTest (name : string) (args : list string)
  : string * option string :=
  let testDir := last args "" in
  if String.eqb testDir "/w/pkgA/..." then
    ("pass" ++ NL ++ "pass" ++ NL, None)
  else if String.eqb testDir "/w/pkgB/..." then
    ("pass" ++ NL ++ "fail" ++ NL, Some "exit status 1")
  else if String.eqb testDir "/w/broken/..." then
    ("{" ++ NL, Some "exit status 2")
  else ("", Some "exit status 1").

Definition record (total : Z) (errors failed : list string) (l : string)
  : testAnalysis Sample.Exec :=
  mkTestAnalysis (Sample.mkExec total errors failed 1500000000) l.

Definition passed : testAnalysis Sample.Exec := record 5 [] [] "pkgA".
Definition failing : testAnalysis Sample.Exec :=
  record 4 [] ["TestB"] "pkgB".
Definition skipped : testAnalysis Sample.Exec := record 0 [] [] "pkgC".

(** A failing record whose label has 82 bytes, and one with 81. *)
Definition failingLong : testAnalysis Sample.Exec :=
  record 1 [] ["TestL"] (strings.repeat_nat "x" 82).
Definition failing81 : testAnalysis Sample.Exec :=
  record 1 [] ["TestL"] (strings.repeat_nat "x" 81).

(** A workspace file with a directive after the block. *)
Definition goWorkTrailing : string :=
  "use (" ++ NL ++ "  ./pkgA" ++ NL ++ ")" ++ NL ++ NL
  ++ "replace example.com/x => ./x" ++ NL.

Definition fsTrailing : FS :=
  fileSystem "/w" [("/w", ["go.work"; "pkgA"]); ("/", ["w"])]
    [("/w/go.work", goWorkTrailing)].

(** A workspace file with a line of 65536 bytes inside the block. *)
Definition longLine : string := strings.repeat_nat "x" (Z.to_nat 65536).

Definition goWorkLong : string :=
  "use (" ++ NL ++ "  ./pkgA" ++ NL ++ longLine ++ NL ++ ")" ++ NL.

Definition fsLong : FS :=
  fileSystem "/w" [("/w", ["go.work"; "pkgA"]); ("/", ["w"])]
    [("/w/go.work", goWorkLong)].

(** The workspace [/w] seen from [/w/x/y], where [/w/x] cannot be
    listed. *)
Definition fsUnreadable : FS :=
  mkFS (Ok "/w/x/y")
    (fun d =>
       if String.eqb d "/w/x/y" then Ok ["y.go"]
       else if String.eqb d "/w/x" then Err "open /w/x: permission denied"
       else if String.eqb d "/w" then Ok ["go.work"; "x"]
       else if String.eqb d "/" then Ok ["w"]
       else Err ("open " ++ d ++ ": no such file or directory"))
    (fun f =>
       if String.eqb f "/w/go.work" then Ok (mkFile goWork None None)
       else Err ("open " ++ f ++ ": no such file or directory")).

(** A directory without a workspace file up to the root. *)
Definition fsNone : FS :=
  fileSystem "/a" [("/a", ["main.go"]); ("/", ["a"])] [].

(** The subprocess with the same outputs as [goTest] and no error. *)
Definition goTestQuiet (name : string) (args : list string)
  : string * option string :=
  (fst (goTest name args), None).

(** The records of [pkgA] and [pkgB] with the subprocess [goTest]. *)
Definition resultA : testAnalysis Sample.Exec :=
  mkTestAnalysis (Sample.mkExec 2 [] [] 0) "pkgA".
Definition resultB : testAnalysis Sample.Exec :=
  mkTestAnalysis (Sample.mkExec 2 [] ["fail"] 0) "pkgB".

End Example.

(** ** The program *)

Section Repotest.

(** [strings.TrimSpace] and [utf8.RuneCountInString] (the latter is what
    [fmt] pads a string by). *)
Variable strings_TrimSpace : string -> string.
Variable utf8_RuneCountInString : string -> Z.

(** The analyzer's [*testjson.Execution] with the methods the program
    calls, [testjson.ScanTestOutput], [testjson.FormatDurationAsSeconds]
    and the text [testjson.PrintSummary] writes. *)
Variable Execution : Type.
Variable Total : Execution -> Z.
Variable Errors : Execution -> list string.
Variable Failed : Execution -> list string.
Variable Elapsed : Execution -> Z.
Variable testjson_ScanTestOutput : string -> result Execution.
Variable testjson_FormatDurationAsSeconds : Z -> Z -> string.
Variable testjson_PrintSummary : Execution -> string.

(** [exec.Command(name, args...).Output()]: the bytes the subprocess wrote
    to its standard output, and the error of running it, if any.  The call
    is a function of the command: the development is about the runs in
    which every subprocess comes to an end. *)
Variable exec_Output : string -> list string -> string * option string.

(** The records of the program are those over the analyzer's
    [Execution]. *)
Local Abbreviation testAnalysis := (testAnalysis Execution) (only parsing).

(** [sort.Slice] with its contract: the result is a rearrangement of the
    slice, and it is ordered whenever [less] is a strict weak ordering. *)
Variable sort_Slice :
  (testAnalysis -> testAnalysis -> bool) -> list testAnalysis ->
  list testAnalysis.

Definition strictWeak {A} (less : A -> A -> bool) : Prop :=
  (forall a, less a a = false)
  /\ (forall a b c, less a b = true -> less b c = true -> less a c = true)
  /\ (forall a b c, less a b = false -> less b c = false -> less a c = false).

Hypothesis sort_Slice_perm :
  forall less l, Permutation (sort_Slice less l) l.
Hypothesis sort_Slice_sorted :
  forall less l, strictWeak less ->
    StronglySorted (fun a b => less b a = false) (sort_Slice less l).

(** *** Reading the workspace file *)

(** The error [scanner.Err()] reports after the scan. *)
Definition scanner_Err (f : File) : option string :=
  if bufio.tooLong (fileData f) then Some bufio.ErrTooLong
  else fileReadErr f.

(** The body of the scan loop of [readWorkspaceFile]; the state is
    [(beginCapture, packages)]. *)
Definition scanLine (path : string) (st : bool * list string)
  (line : string) : bool * list string :=
  let (beginCapture, packages) := st in
  if beginCapture && negb (strings.Contains line ")") then
    let dirName := filepath.Join path (strings_TrimSpace line) in
    (beginCapture, (packages ++ [dirName])%list)
  else if strings.HasPrefix line "use (" then (true, packages)
  else (beginCapture, packages).

Definition logErr (e : option string) : list string :=
  match e with
  | Some msg => [msg]
  | None => []
  end.

(** [readWorkspaceFile(path, filename)]: the packages returned and the
    lines written to the log. *)
Definition readWorkspaceFile (fs : FS) (path filename : string)
  : list string * list string :=
  let fullFilename := filepath.Join path filename in
  match Open fs fullFilename with
  | Err e => ([], [e])
  | Ok f =>
      let packages :=
        snd (fold_left (scanLine path) (bufio.ScanLines (fileData f))
               (false, [])) in
      match scanner_Err f with
      | Some e => ([], e :: logErr (fileCloseErr f))
      | None => (packages, logErr (fileCloseErr f))
      end
  end.

(** *** Locating the workspace file *)

(** The loop of [getWorkspacePaths] from directory [path] on; [fuel]
    bounds the number of iterations. *)
Fixpoint walkUp (fuel : nat) (fs : FS) (path : string)
  : option (string * list string * list string) :=
  match fuel with
  | O => None
  | S fuel' =>
      match ReadDir fs path with
      | Err e => Some ("", [], [e])
      | Ok entries =>
          match find (fun e => String.eqb e workFile) entries with
          | Some e =>
              let (packages, log) := readWorkspaceFile fs path e in
              Some (path, packages, log)
          | None =>
              let path' := filepath.Dir path in
              if (strings.len path' =? 1)%Z then Some ("", [], [])
              else walkUp fuel' fs path'
          end
      end
  end.

(** [getWorkspacePaths()]: the workspace path, the packages and the log
    lines.  Every iteration but the last shortens the path, so the length
    of the current directory bounds the iterations ([None] would be a loop
    that has not ended within that bound; [getWorkspacePaths_total] shows
    there is none). *)
Definition getWorkspacePaths (fs : FS)
  : option (string * list string * list string) :=
  match Getwd fs with
  | Err e => Some ("", [], [e])
  | Ok path => walkUp (S (String.length path)) fs path
  end.

(** The bytes a list of path elements takes, a separator after each. *)
Definition weight (es : list string) : nat :=
  fold_right (fun e n => S (String.length e) + n) 0 es.

(** [d] can be listed and has an entry named [go.work], or none. *)
Definition hasWorkFile (fs : FS) (d : string) : Prop :=
  exists entries, ReadDir fs d = Ok entries /\ In workFile entries.

Definition lacksWorkFile (fs : FS) (d : string) : Prop :=
  exists entries, ReadDir fs d = Ok entries /\ ~ In workFile entries.

(** *** Running and analyzing the tests *)

(** [execTest(dirPath, useCache)]: the subprocess's error is dropped. *)
Definition execTest (dirPath : string) (useCache : bool) : string :=
  let testDir := filepath.Join dirPath "..." in
  if useCache then fst (exec_Output "go" ["test"; "-json"; testDir])
  else fst (exec_Output "go" ["test"; "-count=1"; "-json"; testDir]).

(** [removeRelativePath(wPath, path)]: the error of [Rel] is dropped,
    with which [Rel] returns the empty string. *)
Definition removeRelativePath (wPath path : string) : string :=
  match filepath.Rel wPath path with
  | Ok shortPath => shortPath
  | Err _ => ""
  end.

(** An element of a cleaned path: not empty, not [.] or [..], and without
    a separator. *)
Fixpoint noSep (s : string) : bool :=
  match s with
  | EmptyString => true
  | String c s' => negb (Ascii.eqb c filepath.Separator) && noSep s'
  end.

Definition properName (e : string) : bool :=
  noSep e && negb (String.eqb e "") && negb (String.eqb e ".")
  && negb (String.eqb e "..").

(** The cleaned absolute path with the elements [es]. *)
Definition rootedPath (es : list string) : string :=
  String filepath.Separator (strings.Join es "/").

(** [analyzeTest(wPath, path, output)]. *)
Definition analyzeTest (wPath path output : string) : outcome testAnalysis :=
  match testjson_ScanTestOutput output with
  | Err err => Panicked ("failed to scan testjson: " ++ err)
  | Ok testExec =>
      Returned {| label := removeRelativePath wPath path;
                  testExec := testExec |}
  end.

(** What the goroutine started for [p] computes. *)
Definition worker (wPath : string) (useCache : bool) (p : string)
  : outcome testAnalysis :=
  analyzeTest wPath p (execTest p useCache).

(** The state of [execAllTests] while its goroutines run: the paths the
    spawning goroutine has not started a worker for yet, the workers that
    have neither sent their result nor panicked yet, the buffer of
    [resultCh], whether it is closed, the results received so far, and the
    messages of the workers that have panicked and whose panic has not
    ended the process yet.  The counter of the [WaitGroup] is the number of
    workers in [running], once the loop that starts them is over. *)
Record pool : Type := mkPool {
  toSpawn : list string;
  running : list string;
  resultCh : list testAnalysis;
  chClosed : bool;
  results : list testAnalysis;
  panics : list string
}.

(** The process while [execAllTests] runs, after a panic has ended it, and
    when [execAllTests] has returned [rs] (with the panics that have not
    ended the process yet). *)
Inductive proc : Type :=
| Run (s : pool)
| Crash (msg : string)
| Exit (rs : list testAnalysis) (pending : list string).

(** One step of one goroutine; [cap] is the capacity of [resultCh].  A
    worker's deferred [wg.Done()] is taken together with the last thing the
    worker does, its send or its panic: no other goroutine can tell the
    moment between the two.  The panic ends the process only after the
    deferred call, in a step of its own, so that the other goroutines can
    run in between: the spawning goroutine can pass [wg.Wait()] and close
    the channel, and [execAllTests] can return. *)
Inductive step (wPath : string) (useCache : bool) (cap : nat)
  : proc -> proc -> Prop :=
| step_spawn p ps rn ch cl rs pn :
    step wPath useCache cap
      (Run (mkPool (p :: ps) rn ch cl rs pn))
      (Run (mkPool ps (rn ++ [p]) ch cl rs pn))
| step_send p r1 r2 ps ch cl rs pn ta :
    worker wPath useCache p = Returned ta ->
    length ch < cap ->
    step wPath useCache cap
      (Run (mkPool ps (r1 ++ p :: r2) ch cl rs pn))
      (Run (mkPool ps (r1 ++ r2) (ch ++ [ta]) cl rs pn))
| step_panic p r1 r2 ps ch cl rs pn msg :
    worker wPath useCache p = Panicked msg ->
    step wPath useCache cap
      (Run (mkPool ps (r1 ++ p :: r2) ch cl rs pn))
      (Run (mkPool ps (r1 ++ r2) ch cl rs (pn ++ [msg])))
| step_crash s msg :
    In msg (panics s) ->
    step wPath useCache cap (Run s) (Crash msg)
| step_close ch rs pn :
    step wPath useCache cap
      (Run (mkPool [] [] ch false rs pn))
      (Run (mkPool [] [] ch true rs pn))
| step_recv ps rn ta ch cl rs pn :
    step wPath useCache cap
      (Run (mkPool ps rn (ta :: ch) cl rs pn))
      (Run (mkPool ps rn ch cl (rs ++ [ta]) pn))
| step_return ps rn rs pn :
    step wPath useCache cap
      (Run (mkPool ps rn [] true rs pn))
      (Exit rs pn).

(** [execAllTests(wPath, paths, useCache)] from its first statement. *)
Definition execAllTests_start (paths : list string) : proc :=
  match paths with
  | [] => Exit [] []
  | _ => Run (mkPool paths [] [] false [] [])
  end.

(** [execAllTests wPath paths useCache rs]: some run of the function
    returns [rs]. *)
Definition execAllTests (wPath : string) (paths : list string)
  (useCache : bool) (rs : list testAnalysis) : Prop :=
  exists pending,
    clos_refl_trans_1n proc (step wPath useCache (length paths))
      (execAllTests_start paths) (Exit rs pending).

(** [produces wPath useCache p ta]: the worker started for [p] sends
    [ta]. *)
Definition produces (wPath : string) (useCache : bool) (p : string)
  (ta : testAnalysis) : Prop :=
  worker wPath useCache p = Returned ta.

(** [panicsWith wPath useCache p msg]: the worker started for [p] panics
    with [msg]. *)
Definition panicsWith (wPath : string) (useCache : bool) (p msg : string)
  : Prop :=
  worker wPath useCache p = Panicked msg.

(** The invariant of the run: every path is in exactly one place (not
    started, running, in the channel, received, or panicked), and the
    channel is closed only when no worker is left. *)
Definition accounted (wPath : string) (paths : list string)
  (useCache : bool) (st : proc) : Prop :=
  match st with
  | Run s =>
      exists sent recvd gone,
        Forall2 (produces wPath useCache) sent (resultCh s)
        /\ Forall2 (produces wPath useCache) recvd (results s)
        /\ Forall2 (panicsWith wPath useCache) gone (panics s)
        /\ Permutation (recvd ++ sent ++ gone ++ running s ++ toSpawn s)%list
             paths
        /\ (chClosed s = true -> toSpawn s = [] /\ running s = [])
  | Crash msg => exists p, In p paths /\ panicsWith wPath useCache p msg
  | Exit rs pending =>
      exists recvd gone,
        Forall2 (produces wPath useCache) recvd rs
        /\ Forall2 (panicsWith wPath useCache) gone pending
        /\ Permutation (recvd ++ gone)%list paths
  end.

(** A bound on the number of steps left. *)
Definition stepsLeft (st : proc) : nat :=
  match st with
  | Run s =>
      3 * length (toSpawn s) + 2 * length (running s) + length (resultCh s)
      + (if chClosed s then 1 else 2)
  | Crash _ => 0
  | Exit _ _ => 0
  end.

(** *** Printing *)

(** [getMaxLabel(results)]. *)
Definition getMaxLabel (results : list testAnalysis) : Z :=
  let maxLen :=
    fold_left
      (fun maxLen ta =>
         if (strings.len (label ta) >? maxLen)%Z then strings.len (label ta)
         else maxLen)
      results 0%Z in
  (maxLen + 1)%Z.

Definition len_ {A} (l : list A) : Z := Z.of_nat (length l).

Definition duration (ta : testAnalysis) : string :=
  testjson_FormatDurationAsSeconds (Elapsed (testExec ta)) 3.

(** [ta.printSummary(labelLen)]: the line written. *)
Definition printSummary (ta : testAnalysis) (labelLen : Z) : string :=
  let lbl := fmt.star_s utf8_RuneCountInString labelLen (label ta) in
  if (Total (testExec ta) =? 0)%Z then
    iconSkipped ++ " " ++ lbl ++ NL
  else if (len_ (Errors (testExec ta)) >? 0)%Z
          || (len_ (Failed (testExec ta)) >? 0)%Z then
    iconFailure ++ " " ++ lbl ++ "  " ++ fmt.d3 (Total (testExec ta))
      ++ " tests (" ++ duration ta ++ ") ("
      ++ fmt.d (len_ (Errors (testExec ta))) ++ " errors) ("
      ++ fmt.d (len_ (Failed (testExec ta))) ++ " failed)" ++ NL
  else
    iconSuccess ++ " " ++ lbl ++ "  " ++ fmt.d3 (Total (testExec ta))
      ++ " tests (" ++ duration ta ++ ")" ++ NL.

(** [ta.printFailedDetail()].  Go's [/] on [int] truncates toward zero. *)
Definition printFailedDetail (ta : testAnalysis) : IO unit :=
  if (len_ (Errors (testExec ta)) >? 0)%Z
     || (len_ (Failed (testExec ta)) >? 0)%Z then
    let cnt := Z.quot (80 - strings.len (label ta)) 2 in
    match strings.Repeat "=" cnt with
    | None => panic "strings: negative Repeat count"
    | Some eq =>
        print (NL ++ colorRed ++ eq ++ "  " ++ label ta ++ "  " ++ eq
                  ++ colorReset ++ NL) ;;
        print (testjson_PrintSummary (testExec ta))
    end
  else ret tt.

(** The condition under which [printFailedDetail] prints something. *)
Definition hasFailures (ta : testAnalysis) : bool :=
  (len_ (Errors (testExec ta)) >? 0)%Z || (len_ (Failed (testExec ta)) >? 0)%Z.

(** The comparison [printResults] sorts by. *)
Definition lessLabel (a b : testAnalysis) : bool :=
  strings.ltb (label a) (label b).

(** Ascending order of labels: no later label is below an earlier one. *)
Definition labelLe (a b : string) : Prop := strings.ltb b a = false.

(** The text of a sequence of writes. *)
Definition written (outs : list string) : string :=
  fold_right String.append "" outs.

(** [printResults(results, displayFailures)]. *)
Definition printResults (results : list testAnalysis)
  (displayFailures : bool) : IO unit :=
  match results with
  | [] => ret tt
  | _ =>
      let results := sort_Slice lessLabel results in
      let labelLen := getMaxLabel results in
      print (NL ++ "Results:" ++ NL) ;;
      forEach (fun ta => print (printSummary ta labelLen)) results ;;
      print NL ;;
      if displayFailures then
        forEach printFailedDetail results ;;
        print NL
      else ret tt
  end.

(** *** The program as a whole *)

(** What the function [exeTime] returns prints when it is called, [elapsed]
    after [exeTime] was. *)
Definition exeTime (elapsed : Z) : string :=
  colorBlue ++ "Test execution time: "
    ++ testjson_FormatDurationAsSeconds elapsed 3 ++ colorReset ++ NL.

(** [out] is the beginning of [full]. *)
Definition writtenSoFar (out full : string) : Prop :=
  exists rest, full = out ++ rest.

(** [main()], after the flags are parsed into [showFailures] and
    [useCache]: what the process writes to standard output and how it
    ends.  The timing line is deferred: it is written when [main] returns
    and when [main] panics.  The panic of a worker goroutine ends the
    process where the main goroutine is then: before [execAllTests] has
    returned, or after it, at some point of the writing that follows; the
    process can also end with [main] before that panic has ended it. *)
Inductive main (fs : FS) (showFailures useCache : bool) (elapsed : Z)
  : IO unit -> Prop :=
| main_done wPath paths log rs :
    getWorkspacePaths fs = Some (wPath, paths, log) ->
    execAllTests wPath paths useCache rs ->
    main fs showFailures useCache elapsed
      (("Using " ++ wPath ++ "/go.work file" ++ NL)
         ++ fst (printResults rs showFailures) ++ exeTime elapsed,
       snd (printResults rs showFailures))
| main_crash wPath paths log msg :
    getWorkspacePaths fs = Some (wPath, paths, log) ->
    clos_refl_trans_1n proc (step wPath useCache (length paths))
      (execAllTests_start paths) (Crash msg) ->
    main fs showFailures useCache elapsed
      ("Using " ++ wPath ++ "/go.work file" ++ NL, Panicked msg)
| main_crash_late wPath paths log rs pending msg out :
    getWorkspacePaths fs = Some (wPath, paths, log) ->
    clos_refl_trans_1n proc (step wPath useCache (length paths))
      (execAllTests_start paths) (Exit rs pending) ->
    In msg pending ->
    writtenSoFar out (fst (printResults rs showFailures) ++ exeTime elapsed) ->
    main fs showFailures useCache elapsed
      (("Using " ++ wPath ++ "/go.work file" ++ NL) ++ out, Panicked msg).

(** ** Properties *)

(** A lemma depends on the external functions its statement names and
    on no other. *)
Set Default Proof Using "Type".
Set Proof Using Clear Unused.

(** *** The label column *)

Lemma getMaxLabel_fold_ge (l : list testAnalysis) (m : Z) :
  (m <= fold_left
          (fun maxLen ta =>
             if (strings.len (label ta) >? maxLen)%Z
             then strings.len (label ta) else maxLen) l m)%Z
  /\ forall ta, In ta l ->
       (strings.len (label ta)
        <= fold_left
             (fun maxLen ta =>
                if (strings.len (label ta) >? maxLen)%Z
                then strings.len (label ta) else maxLen) l m)%Z.
Proof.
  revert m; induction l as [|a l IH]; intro m; simpl.
  - split; [lia | tauto].
  - destruct (Z.gtb_spec (strings.len (label a)) m) as [Hgt|Hle].
    + destruct (IH (strings.len (label a))) as [H1 H2].
      split; [lia|]. intros ta [->|Hin]; auto.
    + destruct (IH m) as [H1 H2].
      split; [lia|]. intros ta [->|Hin]; [lia | auto].
Qed.

Lemma getMaxLabel_fold_attained (l : list testAnalysis) (m : Z) :
  fold_left
    (fun maxLen ta =>
       if (strings.len (label ta) >? maxLen)%Z
       then strings.len (label ta) else maxLen) l m = m
  \/ exists ta, In ta l
       /\ fold_left
            (fun maxLen ta =>
               if (strings.len (label ta) >? maxLen)%Z
               then strings.len (label ta) else maxLen) l m
          = strings.len (label ta).
Proof.
  revert m; induction l as [|a l IH]; intro m; simpl.
  - now left.
  - destruct (Z.gtb_spec (strings.len (label a)) m) as [Hgt|Hle].
    + right. destruct (IH (strings.len (label a))) as [E|[ta [Hin E]]].
      * exists a. auto.
      * exists ta. auto.
    + destruct (IH m) as [E|[ta [Hin E]]]; [now left|].
      right. exists ta. auto.
Qed.

Lemma strings_len_nonneg (s : string) : (0 <= strings.len s)%Z.
Proof. unfold strings.len. lia. Qed.

(** C7. For a non-empty list of records, [getMaxLabel] is the length of a
    longest label plus one: some record's label has that length and no
    label is longer.  In particular labels of lengths 3, 7 and 1 give 8. *)
Theorem getMaxLabel_longest_plus_one (results : list testAnalysis) :
  results <> [] ->
  (exists ta, In ta results
     /\ getMaxLabel results = (strings.len (label ta) + 1)%Z)
  /\ (forall ta, In ta results ->
        (strings.len (label ta) + 1 <= getMaxLabel results)%Z)
  /\ (map (fun ta => strings.len (label ta)) results = [3; 7; 1]%Z ->
      getMaxLabel results = 8%Z).
Proof.
  intro Hne. unfold getMaxLabel.
  destruct (getMaxLabel_fold_ge results 0) as [Hlow Hall].
  split; [|split].
  - destruct (getMaxLabel_fold_attained results 0) as [E|[ta [Hin E]]].
    + destruct results as [|a l]; [congruence|].
      exists a. split; [now left|].
      pose proof (Hall a (or_introl eq_refl)) as Ha.
      pose proof (strings_len_nonneg (label a)). lia.
    + exists ta. split; [assumption | lia].
  - intros ta Hin. specialize (Hall ta Hin). lia.
  - intro Hl.
    destruct results as [|a [|b [|c [|? ?]]]]; try discriminate Hl.
    simpl in Hl. injection Hl as Ha Hb Hc.
    simpl. rewrite Ha, Hb, Hc. reflexivity.
Qed.

(** *** The summary line *)

(** C3. The icon of the summary line: the skipped icon when no test ran;
    with tests, the failure icon followed by the error and failed counts
    when there is an error or a failed test, and the success icon without
    those counts otherwise. *)
Theorem printSummary_icon (ta : testAnalysis) (labelLen : Z) :
  let lbl := fmt.star_s utf8_RuneCountInString labelLen (label ta) in
  let n := Total (testExec ta) in
  let e := len_ (Errors (testExec ta)) in
  let f := len_ (Failed (testExec ta)) in
  (n = 0%Z -> printSummary ta labelLen = iconSkipped ++ " " ++ lbl ++ NL)
  /\ ((n > 0)%Z -> (e > 0)%Z \/ (f > 0)%Z ->
      printSummary ta labelLen
      = iconFailure ++ " " ++ lbl ++ "  " ++ fmt.d3 n ++ " tests ("
          ++ duration ta ++ ") (" ++ fmt.d e ++ " errors) (" ++ fmt.d f
          ++ " failed)" ++ NL)
  /\ ((n > 0)%Z -> e = 0%Z -> f = 0%Z ->
      printSummary ta labelLen
      = iconSuccess ++ " " ++ lbl ++ "  " ++ fmt.d3 n ++ " tests ("
          ++ duration ta ++ ")" ++ NL).
Proof.
  intros lbl n e f. unfold printSummary. fold lbl n e f.
  split; [|split].
  - intros ->. reflexivity.
  - intros Hn Hef.
    destruct (Z.eqb_spec n 0) as [E|_]; [lia|].
    destruct (Z.gtb_spec e 0), (Z.gtb_spec f 0); simpl; try reflexivity.
    lia.
  - intros Hn He Hf.
    destruct (Z.eqb_spec n 0) as [E|_]; [lia|].
    rewrite He, Hf. reflexivity.
Qed.

(** *** The analyzer's errors *)

(** C5. When the analyzer cannot parse the output, [analyzeTest] panics:
    it returns neither a record nor an error. *)
Theorem analyzeTest_panics (wPath path output err : string) :
  testjson_ScanTestOutput output = Err err ->
  analyzeTest wPath path output
  = Panicked ("failed to scan testjson: " ++ err).
Proof.
  intro H. unfold analyzeTest. rewrite H. reflexivity.
Qed.

Lemma analyzeTest_returns (wPath path output : string) (ex : Execution) :
  testjson_ScanTestOutput output = Ok ex ->
  analyzeTest wPath path output
  = Returned (mkTestAnalysis ex (removeRelativePath wPath path)).
Proof.
  intro H. unfold analyzeTest. rewrite H. reflexivity.
Qed.

(** *** The banner of the failure detail *)

Lemma banner_count_negative (n : Z) :
  (Z.quot (80 - n) 2 < 0)%Z <-> (82 <= n)%Z.
Proof.
  split; intro H.
  - destruct (Z_lt_le_dec n 82) as [Hlt|]; [|assumption].
    exfalso.
    destruct (Z_le_gt_dec n 80) as [Hle|Hgt].
    + assert (0 <= Z.quot (80 - n) 2)%Z by (apply Z.quot_pos; lia). lia.
    + assert (n = 81)%Z by lia. subst n. vm_compute in H. discriminate H.
  - replace (80 - n)%Z with (- (n - 80))%Z by lia.
    rewrite Z.quot_opp_l by lia.
    assert (1 <= Z.quot (n - 80) 2)%Z; [|lia].
    rewrite Z.quot_div_nonneg by lia.
    apply Z.div_le_lower_bound; lia.
Qed.

(** C10. For a failing record, [printFailedDetail] panics exactly when the
    label has 82 bytes or more: the count passed to [strings.Repeat],
    [(80 - len(label)) / 2], is then negative; with 81 bytes or fewer the
    call returns. *)
Theorem printFailedDetail_panics_from_82 (ta : testAnalysis) :
  (len_ (Errors (testExec ta)) > 0)%Z \/ (len_ (Failed (testExec ta)) > 0)%Z ->
  ((82 <= strings.len (label ta))%Z ->
     (Z.quot (80 - strings.len (label ta)) 2 < 0)%Z
     /\ printFailedDetail ta
        = ("", Panicked "strings: negative Repeat count"))
  /\ ((strings.len (label ta) <= 81)%Z ->
      exists out, printFailedDetail ta = (out, Returned tt)).
Proof.
  intro Hfail.
  assert (Hcond : (len_ (Errors (testExec ta)) >? 0)%Z
                  || (len_ (Failed (testExec ta)) >? 0)%Z = true).
  { apply orb_true_iff.
    destruct Hfail; [left|right]; apply Z.gtb_lt; lia. }
  unfold printFailedDetail. rewrite Hcond. unfold strings.Repeat.
  split.
  - intro Hlen. apply banner_count_negative in Hlen.
    split; [assumption|].
    destruct (Z.ltb_spec (Z.quot (80 - strings.len (label ta)) 2) 0);
      [reflexivity | lia].
  - intro Hlen.
    destruct (Z.ltb_spec (Z.quot (80 - strings.len (label ta)) 2) 0)
      as [Hneg|_].
    + apply banner_count_negative in Hneg. lia.
    + eexists. reflexivity.
Qed.

(** *** Reading the workspace file *)

Lemma Contains_HasPrefix (s t : string) :
  strings.Contains s t = false -> strings.HasPrefix s t = false.
Proof.
  destruct s; simpl; intro H; apply orb_false_iff in H; tauto.
Qed.

(** Before the opening line nothing is captured. *)
Lemma scan_before_block (path : string) (lines acc : list string) :
  Forall (fun l => strings.HasPrefix l "use (" = false) lines ->
  fold_left (scanLine path) lines (false, acc) = (false, acc).
Proof.
  induction 1 as [|l ls Hl _ IH]; simpl; [reflexivity|].
  rewrite Hl. exact IH.
Qed.

(** From the opening line on, every line without a closing parenthesis
    is captured, the others are skipped, and the capture never ends. *)
Lemma scan_in_block (path : string) (lines acc : list string) :
  fold_left (scanLine path) lines (true, acc)
  = (true,
     (acc ++ map (fun l => filepath.Join path (strings_TrimSpace l))
               (filter (fun l => negb (strings.Contains l ")")) lines))%list).
Proof.
  revert acc; induction lines as [|l ls IH]; intro acc; simpl.
  - now rewrite app_nil_r.
  - destruct (strings.Contains l ")"); simpl.
    + destruct (strings.HasPrefix l "use ("); apply IH.
    + rewrite IH, <- app_assoc. reflexivity.
Qed.

Lemma scan_lines (path : string) (pre rest : list string) (opening : string) :
  Forall (fun l => strings.HasPrefix l "use (" = false) pre ->
  strings.HasPrefix opening "use (" = true ->
  fold_left (scanLine path) (pre ++ opening :: rest) (false, [])
  = (true,
     map (fun l => filepath.Join path (strings_TrimSpace l))
       (filter (fun l => negb (strings.Contains l ")")) rest)).
Proof.
  intros Hpre Hop.
  rewrite fold_left_app, scan_before_block by assumption.
  simpl. rewrite Hop. apply scan_in_block.
Qed.

Lemma filter_all (A : Type) (p : A -> bool) (l : list A) :
  Forall (fun x => p x = true) l -> filter p l = l.
Proof.
  induction 1 as [|x l Hx _ IH]; simpl; [reflexivity|].
  now rewrite Hx, IH.
Qed.

Lemma filter_none (A : Type) (p : A -> bool) (l : list A) :
  Forall (fun x => p x = false) l -> filter p l = [].
Proof.
  induction 1 as [|x l Hx _ IH]; simpl; [reflexivity|].
  now rewrite Hx.
Qed.

(** C1, as the code has it.  When the scan succeeds and the lines of the
    file are: lines that do not start with the opening token, a line that
    starts with it, the interior lines, and from the closing line on only
    lines that contain a closing parenthesis, [readWorkspaceFile] returns
    exactly the trimmed interior lines that contain no closing parenthesis
    (blank ones included), in order, each joined with [path]. *)
Theorem readWorkspaceFile_use_block
  (fs : FS) (path filename : string) (f : File)
  (pre interior rest : list string) (opening : string) :
  Open fs (filepath.Join path filename) = Ok f ->
  scanner_Err f = None ->
  bufio.ScanLines (fileData f) = (pre ++ opening :: interior ++ rest)%list ->
  Forall (fun l => strings.HasPrefix l "use (" = false) pre ->
  strings.HasPrefix opening "use (" = true ->
  Forall (fun l => strings.Contains l ")" = true) rest ->
  fst (readWorkspaceFile fs path filename)
  = map (fun l => filepath.Join path (strings_TrimSpace l))
      (filter (fun l => negb (strings.Contains l ")")) interior).
Proof.
  intros Hopen Herr Hlines Hpre Hop Hrest.
  unfold readWorkspaceFile. rewrite Hopen, Herr, Hlines. simpl.
  rewrite scan_lines by assumption. simpl.
  rewrite filter_app, (filter_none _ _ rest), app_nil_r.
  - reflexivity.
  - eapply Forall_impl; [|exact Hrest]. simpl. intros a ->. reflexivity.
Qed.

(** When no interior line contains a closing parenthesis, all of them are
    returned. *)
Lemma readWorkspaceFile_whole_block
  (fs : FS) (path filename : string) (f : File)
  (pre interior rest : list string) (opening : string) :
  Open fs (filepath.Join path filename) = Ok f ->
  scanner_Err f = None ->
  bufio.ScanLines (fileData f) = (pre ++ opening :: interior ++ rest)%list ->
  Forall (fun l => strings.HasPrefix l "use (" = false) pre ->
  strings.HasPrefix opening "use (" = true ->
  Forall (fun l => strings.Contains l ")" = false) interior ->
  Forall (fun l => strings.Contains l ")" = true) rest ->
  fst (readWorkspaceFile fs path filename)
  = map (fun l => filepath.Join path (strings_TrimSpace l)) interior.
Proof.
  intros Hopen Herr Hlines Hpre Hop Hint Hrest.
  unfold readWorkspaceFile. rewrite Hopen, Herr, Hlines. simpl.
  rewrite scan_lines by assumption. simpl.
  rewrite filter_app.
  rewrite (filter_all _ _ interior), (filter_none _ _ rest), app_nil_r.
  - reflexivity.
  - eapply Forall_impl; [|exact Hrest]. simpl. intros a ->. reflexivity.
  - eapply Forall_impl; [|exact Hint]. simpl. intros a ->. reflexivity.
Qed.

(** C9. A file none of whose lines contains the opening token gives no
    package, and the only lines logged are the errors of reading and of
    closing the file, if any: the missing block is not an error. *)
Theorem readWorkspaceFile_no_block
  (fs : FS) (path filename : string) (f : File) :
  Open fs (filepath.Join path filename) = Ok f ->
  (forall line, In line (bufio.ScanLines (fileData f)) ->
     strings.Contains line "use (" = false) ->
  fst (readWorkspaceFile fs path filename) = []
  /\ snd (readWorkspaceFile fs path filename)
     = (logErr (scanner_Err f) ++ logErr (fileCloseErr f))%list.
Proof.
  intros Hopen Hno.
  unfold readWorkspaceFile. rewrite Hopen.
  rewrite scan_before_block.
  - destruct (scanner_Err f); simpl; auto.
  - apply Forall_forall. intros l Hl.
    apply Contains_HasPrefix. auto.
Qed.

(** In general every line after the first opening line that has no
    closing parenthesis is returned, those after the closing line too: the
    capture does not end. *)
Lemma readWorkspaceFile_from_opening
  (fs : FS) (path filename : string) (f : File)
  (pre rest : list string) (opening : string) :
  Open fs (filepath.Join path filename) = Ok f ->
  scanner_Err f = None ->
  bufio.ScanLines (fileData f) = (pre ++ opening :: rest)%list ->
  Forall (fun l => strings.HasPrefix l "use (" = false) pre ->
  strings.HasPrefix opening "use (" = true ->
  fst (readWorkspaceFile fs path filename)
  = map (fun l => filepath.Join path (strings_TrimSpace l))
      (filter (fun l => negb (strings.Contains l ")")) rest).
Proof.
  intros Hopen Herr Hlines Hpre Hop.
  unfold readWorkspaceFile. rewrite Hopen, Herr, Hlines. simpl.
  rewrite scan_lines by assumption. reflexivity.
Qed.

(** Whatever the file, [readWorkspaceFile] returns no package when no
    line starts with the opening token, when the file cannot be opened and
    when the scan fails. *)
Lemma readWorkspaceFile_empty (fs : FS) (path filename : string) :
  (forall f, Open fs (filepath.Join path filename) = Ok f ->
     scanner_Err f = None ->
     Forall (fun l => strings.HasPrefix l "use (" = false)
       (bufio.ScanLines (fileData f))) ->
  fst (readWorkspaceFile fs path filename) = [].
Proof.
  intro H. unfold readWorkspaceFile.
  destruct (Open fs (filepath.Join path filename)) as [f|e]; [|reflexivity].
  destruct (scanner_Err f) eqn:E; [reflexivity|].
  rewrite scan_before_block; auto.
Qed.

(** *** Strings: concatenation and order *)

Lemma append_assoc (a b c : string) : (a ++ b) ++ c = a ++ (b ++ c).
Proof. induction a as [|x a IH]; simpl; [reflexivity | now rewrite IH]. Qed.

Lemma append_nil_r (a : string) : a ++ "" = a.
Proof. induction a as [|x a IH]; simpl; [reflexivity | now rewrite IH]. Qed.

Lemma length_append (a b : string) :
  String.length (a ++ b) = String.length a + String.length b.
Proof. induction a as [|x a IH]; simpl; [reflexivity | now rewrite IH]. Qed.

Lemma nat_of_ascii_inj (c d : ascii) : nat_of_ascii c = nat_of_ascii d -> c = d.
Proof.
  intro H. rewrite <- (ascii_nat_embedding c), <- (ascii_nat_embedding d).
  now rewrite H.
Qed.

Lemma ltb_irrefl (a : string) : strings.ltb a a = false.
Proof.
  induction a as [|c a IH]; simpl; [reflexivity|].
  rewrite Nat.ltb_irrefl, IH, andb_false_r. reflexivity.
Qed.

Lemma ltb_cons (c d : ascii) (a b : string) :
  strings.ltb (String c a) (String d b) = true
  <-> nat_of_ascii c < nat_of_ascii d \/ (c = d /\ strings.ltb a b = true).
Proof.
  simpl. rewrite orb_true_iff, andb_true_iff, Nat.ltb_lt.
  split; (intros [H|[H1 H2]]; [now left | right; split; [|assumption]]).
  - now apply Ascii.eqb_eq.
  - now apply Ascii.eqb_eq.
Qed.

Lemma ltb_trans (a b c : string) :
  strings.ltb a b = true -> strings.ltb b c = true -> strings.ltb a c = true.
Proof.
  revert b c; induction a as [|x a IH]; intros [|y b] [|z c];
    try (simpl; congruence).
  rewrite !ltb_cons.
  intros [H1|[-> H1]] [H2|[-> H2]].
  - left; lia.
  - now left.
  - now left.
  - right. split; [reflexivity|]. eapply IH; eassumption.
Qed.

(** The order is total: two strings are equal or one is below the
    other. *)
Lemma ltb_trichotomy (a b : string) :
  strings.ltb a b = false -> a = b \/ strings.ltb b a = true.
Proof.
  revert b; induction a as [|x a IH]; intros [|y b]; simpl; auto;
    try discriminate.
  intro H. apply orb_false_iff in H. destruct H as [H1 H2].
  apply Nat.ltb_ge in H1.
  destruct (Nat.eq_dec (nat_of_ascii x) (nat_of_ascii y)) as [E|N].
  - apply nat_of_ascii_inj in E. subst y.
    rewrite Ascii.eqb_refl in H2. simpl in H2.
    destruct (IH b H2) as [->|H]; [now left|].
    right. rewrite Nat.ltb_irrefl, Ascii.eqb_refl, H. reflexivity.
  - right. apply orb_true_iff. left. apply Nat.ltb_lt. lia.
Qed.

Lemma ltb_asym (a b : string) :
  strings.ltb a b = true -> strings.ltb b a = false.
Proof.
  intro H. destruct (strings.ltb b a) eqn:E; [|reflexivity].
  pose proof (ltb_trans _ _ _ H E) as F. now rewrite ltb_irrefl in F.
Qed.

Lemma ltb_neg_trans (a b c : string) :
  strings.ltb a b = false -> strings.ltb b c = false ->
  strings.ltb a c = false.
Proof.
  intros H1 H2.
  destruct (ltb_trichotomy _ _ H1) as [->|H1']; [assumption|].
  destruct (ltb_trichotomy _ _ H2) as [->|H2']; [assumption|].
  apply ltb_asym. eapply ltb_trans; eassumption.
Qed.

Lemma labelLe_antisym (a b : string) : labelLe a b -> labelLe b a -> a = b.
Proof.
  unfold labelLe. intros H1 H2.
  destruct (ltb_trichotomy _ _ H2) as [E|H]; [assumption | congruence].
Qed.

Lemma lessLabel_strictWeak : strictWeak lessLabel.
Proof.
  unfold strictWeak, lessLabel. repeat split.
  - intro a. apply ltb_irrefl.
  - intros a b c. apply ltb_trans.
  - intros a b c. apply ltb_neg_trans.
Qed.

(** *** The order of presentation *)

Lemma StronglySorted_map (A B : Type) (f : A -> B) (R : B -> B -> Prop)
  (l : list A) :
  StronglySorted (fun x y => R (f x) (f y)) l -> StronglySorted R (map f l).
Proof.
  induction 1 as [|a l _ IH Hall]; simpl; constructor.
  - exact IH.
  - apply Forall_map. exact Hall.
Qed.

(** A list of labels has one ascending rearrangement only. *)
Lemma sorted_labels_unique (l1 l2 : list string) :
  StronglySorted labelLe l1 -> StronglySorted labelLe l2 ->
  Permutation l1 l2 -> l1 = l2.
Proof.
  intro S1. revert l2.
  induction S1 as [|a l1 S1 IH Ha]; intros l2 S2 P.
  - apply Permutation_nil in P. now subst.
  - destruct l2 as [|b l2].
    + apply Permutation_sym, Permutation_nil in P. discriminate.
    + apply StronglySorted_inv in S2. destruct S2 as [S2 Hb].
      assert (E : a = b).
      { assert (Hin_b : In b (a :: l1)).
        { eapply Permutation_in;
            [apply Permutation_sym; exact P | now left]. }
        assert (Hin_a : In a (b :: l2)).
        { eapply Permutation_in; [exact P | now left]. }
        destruct Hin_b as [E|Hin_b]; [assumption|].
        destruct Hin_a as [E|Hin_a]; [now symmetry|].
        apply labelLe_antisym.
        - rewrite Forall_forall in Ha. auto.
        - rewrite Forall_forall in Hb. auto. }
      subst b. f_equal. apply IH; [assumption|].
      eapply Permutation_cons_inv. exact P.
Qed.

Lemma forEach_print (A : Type) (g : A -> string) (l : list A) :
  forEach (fun x => print (g x)) l = (written (map g l), Returned tt).
Proof.
  induction l as [|x l IH]; simpl; [reflexivity|].
  rewrite IH. reflexivity.
Qed.

(** C6. [printResults] presents the records in ascending order of their
    labels: what it writes is the heading, then the summary lines of a
    rearrangement of the records whose labels ascend and, when asked for,
    the failure details in the same order.  In particular records labelled
    b, a, c are presented in the order a, b, c. *)
Theorem printResults_sorted_by_label
  (results : list testAnalysis) (displayFailures : bool) :
  exists presented,
    Permutation presented results
    /\ StronglySorted labelLe (map label presented)
    /\ (results <> [] ->
        fst (printResults results displayFailures)
        = NL ++ "Results:" ++ NL
            ++ written (map (fun ta =>
                               printSummary ta (getMaxLabel presented))
                          presented)
            ++ NL
            ++ (if displayFailures
                then fst (forEach printFailedDetail presented ;; print NL)
                else ""))
    /\ (map label results = ["b"; "a"; "c"] ->
        map label presented = ["a"; "b"; "c"]).
Proof using Type sort_Slice_perm sort_Slice_sorted.
  exists (sort_Slice lessLabel results).
  assert (Hperm := sort_Slice_perm lessLabel results).
  assert (Hsorted : StronglySorted labelLe
                      (map label (sort_Slice lessLabel results))).
  { apply StronglySorted_map.
    exact (sort_Slice_sorted lessLabel results lessLabel_strictWeak). }
  split; [assumption|]. split; [assumption|]. split.
  - intro Hne. destruct results as [|r rs]; [congruence|].
    unfold printResults.
    set (sorted := sort_Slice lessLabel (r :: rs)).
    unfold bind at 1. unfold print at 1.
    rewrite forEach_print. unfold bind at 1.
    destruct displayFailures.
    + simpl.
      destruct (forEach printFailedDetail sorted ;; print NL) as [o res].
      simpl. rewrite ?append_assoc. reflexivity.
    + simpl. rewrite ?append_assoc. reflexivity.
  - intro Hl.
    apply sorted_labels_unique; [assumption | |].
    + repeat constructor; reflexivity.
    + apply Permutation_trans with (map label results).
      * apply Permutation_map. assumption.
      * rewrite Hl. apply perm_swap.
Qed.

(** *** The goroutines of [execAllTests] *)

Lemma Forall2_In_r (A B : Type) (R : A -> B -> Prop) (l : list A)
  (l' : list B) (y : B) :
  Forall2 R l l' -> In y l' -> exists x, In x l /\ R x y.
Proof.
  induction 1 as [|x y' l l' Hxy _ IH]; [intros []|].
  intros [<-|Hin].
  - exists x. split; [now left | assumption].
  - destruct (IH Hin) as (x' & Hx' & Hr). exists x'. split; [now right|].
    assumption.
Qed.

Lemma accounted_start (wPath : string) (paths : list string)
  (useCache : bool) :
  accounted wPath paths useCache (execAllTests_start paths).
Proof.
  destruct paths as [|p ps]; simpl.
  - exists [], []. split; [constructor|]. split; constructor.
  - exists [], [], []. simpl.
    split; [constructor|]. split; [constructor|]. split; [constructor|].
    split; [apply Permutation_refl | discriminate].
Qed.

Lemma accounted_step (wPath : string) (paths : list string)
  (useCache : bool) (cap : nat) (st st' : proc) :
  step wPath useCache cap st st' ->
  accounted wPath paths useCache st -> accounted wPath paths useCache st'.
Proof.
  intros Hstep Hacc.
  destruct Hstep as [p ps rn ch cl rs pn | p r1 r2 ps ch cl rs pn ta Hw Hcap
                     | p r1 r2 ps ch cl rs pn msg Hw | s msg Hin
                     | ch rs pn | ps rn ta ch cl rs pn | ps rn rs pn];
    simpl in *.
  - destruct Hacc as (sent & recvd & gone & Hs & Hr & Hg & Hp & Hc).
    exists sent, recvd, gone.
    split; [assumption|]. split; [assumption|]. split; [assumption|]. split.
    + rewrite <- Hp. rewrite <- app_assoc. reflexivity.
    + intro H. destruct (Hc H) as [H1 _]. discriminate.
  - destruct Hacc as (sent & recvd & gone & Hs & Hr & Hg & Hp & Hc).
    exists (sent ++ [p])%list, recvd, gone.
    split; [|split; [assumption|split; [assumption|split]]].
    + apply Forall2_app; [assumption|]. constructor; [assumption|constructor].
    + rewrite <- Hp. apply Permutation_app_head.
      rewrite <- !app_assoc. apply Permutation_app_head. simpl.
      rewrite (app_assoc gone r1 (r2 ++ ps)).
      rewrite (app_assoc gone r1 (p :: r2 ++ ps)).
      apply Permutation_middle.
    + intro H. destruct (Hc H) as [_ H2].
      destruct r1; discriminate.
  - destruct Hacc as (sent & recvd & gone & Hs & Hr & Hg & Hp & Hc).
    exists sent, recvd, (gone ++ [p])%list.
    split; [assumption|]. split; [assumption|]. split; [|split].
    + apply Forall2_app; [assumption|]. constructor; [assumption|constructor].
    + rewrite <- Hp. apply Permutation_app_head, Permutation_app_head.
      rewrite <- !app_assoc. apply Permutation_app_head. simpl.
      apply (Permutation_middle r1 (r2 ++ ps) p).
    + intro H. destruct (Hc H) as [_ H2].
      destruct r1; discriminate.
  - destruct s as [ps rn ch cl rs pn]. simpl in *.
    destruct Hacc as (sent & recvd & gone & Hs & Hr & Hg & Hp & Hc).
    destruct (Forall2_In_r _ _ _ _ _ _ Hg Hin) as (p & Hp1 & Hp2).
    exists p. split; [|assumption].
    eapply Permutation_in; [exact Hp|].
    apply in_or_app. right. apply in_or_app. right.
    apply in_or_app. now left.
  - destruct Hacc as (sent & recvd & gone & Hs & Hr & Hg & Hp & Hc).
    exists sent, recvd, gone.
    split; [assumption|]. split; [assumption|]. split; [assumption|].
    split; [assumption|]. intros _. split; reflexivity.
  - destruct Hacc as (sent & recvd & gone & Hs & Hr & Hg & Hp & Hc).
    inversion Hs as [|q ta' sent' ch' Hq Hs' E1 E2]; subst.
    exists sent', (recvd ++ [q])%list, gone.
    split; [assumption|]. split; [|split; [assumption|split; [|assumption]]].
    + apply Forall2_app; [assumption|]. constructor; [assumption|constructor].
    + rewrite <- Hp. rewrite <- app_assoc. reflexivity.
  - destruct Hacc as (sent & recvd & gone & Hs & Hr & Hg & Hp & Hc).
    inversion Hs; subst.
    destruct (Hc eq_refl) as [-> ->].
    exists recvd, gone. split; [assumption|]. split; [assumption|].
    simpl in Hp. rewrite !app_nil_r in Hp. exact Hp.
Qed.

Lemma accounted_steps (wPath : string) (paths : list string)
  (useCache : bool) (cap : nat) (st st' : proc) :
  clos_refl_trans_1n proc (step wPath useCache cap) st st' ->
  accounted wPath paths useCache st -> accounted wPath paths useCache st'.
Proof.
  induction 1 as [|x y z Hxy _ IH]; [tauto|].
  intro H. apply IH. eapply accounted_step; eassumption.
Qed.

(** Every step of a goroutine brings the end nearer. *)
Lemma step_stepsLeft (wPath : string) (useCache : bool) (cap : nat)
  (st st' : proc) :
  step wPath useCache cap st st' -> stepsLeft st' < stepsLeft st.
Proof.
  destruct 1; simpl; rewrite ?length_app; simpl;
    try (destruct (chClosed s)); try destruct cl; lia.
Qed.

Lemma steps_step (wPath : string) (useCache : bool) (cap : nat)
  (x y z : proc) :
  step wPath useCache cap x y ->
  clos_refl_trans_1n proc (step wPath useCache cap) y z ->
  clos_refl_trans_1n proc (step wPath useCache cap) x z.
Proof. intros H1 H2. econstructor; eassumption. Qed.

Lemma steps_trans (wPath : string) (useCache : bool) (cap : nat)
  (x y z : proc) :
  clos_refl_trans_1n proc (step wPath useCache cap) x y ->
  clos_refl_trans_1n proc (step wPath useCache cap) y z ->
  clos_refl_trans_1n proc (step wPath useCache cap) x z.
Proof.
  induction 1 as [|a b c Hab _ IH]; [tauto|].
  intro H. econstructor; [exact Hab | exact (IH H)].
Qed.

(** The run in which each worker is started, sends and is received from
    before the next one is started. *)
Lemma run_one_by_one (wPath : string) (useCache : bool) (cap : nat)
  (ps : list string) (tas rs : list testAnalysis) (pn : list string) :
  0 < cap ->
  Forall2 (produces wPath useCache) ps tas ->
  clos_refl_trans_1n proc (step wPath useCache cap)
    (Run (mkPool ps [] [] false rs pn))
    (Run (mkPool [] [] [] false (rs ++ tas) pn)).
Proof.
  intros Hcap H. revert rs.
  induction H as [|p ta ps tas Hp _ IH]; intro rs.
  - rewrite app_nil_r. constructor.
  - eapply steps_step; [apply step_spawn|]. simpl.
    eapply steps_step.
    { apply (step_send wPath useCache cap p [] [] ps [] false rs pn ta Hp).
      simpl. exact Hcap. }
    simpl. eapply steps_step; [apply step_recv|].
    replace (rs ++ ta :: tas)%list with ((rs ++ [ta]) ++ tas)%list
      by (rewrite <- app_assoc; reflexivity).
    apply IH.
Qed.

Lemma accounted_running (wPath : string) (paths : list string)
  (useCache : bool) (ps rn : list string) (ch rs : list testAnalysis)
  (cl : bool) (pn : list string) (p : string) :
  accounted wPath paths useCache (Run (mkPool ps rn ch cl rs pn)) ->
  In p rn ->
  In p paths /\ length ch < length paths.
Proof.
  simpl. intros (sent & recvd & gone & Hs & Hr & Hg & Hp & _) Hin. split.
  - eapply Permutation_in; [exact Hp|].
    apply in_or_app. right. apply in_or_app. right.
    apply in_or_app. right. apply in_or_app. now left.
  - apply Permutation_length in Hp. rewrite !length_app in Hp.
    rewrite <- (Forall2_length Hs).
    destruct rn as [|q rn]; [destruct Hin | simpl in Hp; lia].
Qed.

(** A state in which every path is accounted for is not blocked: some
    goroutine can take a step. *)
Lemma accounted_progress (wPath : string) (paths : list string)
  (useCache : bool) (s : pool) :
  accounted wPath paths useCache (Run s) ->
  exists st', step wPath useCache (length paths) (Run s) st'.
Proof.
  intros Hacc. destruct s as [ps rn ch cl rs pn].
  destruct ps as [|p ps]; [|eexists; apply step_spawn].
  destruct rn as [|p rn].
  - destruct ch as [|ta ch]; [|eexists; apply step_recv].
    destruct cl; eexists; [apply step_return | apply step_close].
  - destruct (accounted_running _ _ _ _ _ _ _ _ _ p Hacc (or_introl eq_refl))
      as [Hin Hlen].
    destruct (worker wPath useCache p) as [ta|msg] eqn:Hw.
    + eexists. apply (step_send _ _ _ p [] rn [] ch cl rs pn ta Hw Hlen).
    + eexists. apply (step_panic _ _ _ p [] rn [] ch cl rs pn msg Hw).
Qed.

(** What [execAllTests] returns has one record for each path whose worker
    did not panic, and none for the others. *)
Lemma execAllTests_returned (wPath : string) (paths : list string)
  (useCache : bool) (rs : list testAnalysis) :
  execAllTests wPath paths useCache rs ->
  exists ps qs,
    Permutation (ps ++ qs)%list paths
    /\ Forall2 (produces wPath useCache) ps rs
    /\ Forall (fun q => exists msg, panicsWith wPath useCache q msg) qs.
Proof.
  intros [pending Hrun].
  pose proof (accounted_steps wPath paths useCache _ _ _ Hrun
                (accounted_start wPath paths useCache)) as Hacc.
  simpl in Hacc. destruct Hacc as (recvd & gone & Hf & Hg & Hp).
  exists recvd, gone. split; [assumption|]. split; [assumption|].
  clear Hp Hrun. induction Hg as [|q msg gone pending Hq _ IH]; constructor.
  - exists msg. exact Hq.
  - exact IH.
Qed.

(** The workers that are running can all finish, each with its send or
    with its panic. *)
Lemma finish_all (wPath : string) (useCache : bool) (cap : nat)
  (rn : list string) :
  forall (ch rs : list testAnalysis) (pn : list string),
    length ch + length rn <= cap ->
    exists tas msgs,
      clos_refl_trans_1n proc (step wPath useCache cap)
        (Run (mkPool [] rn ch false rs pn))
        (Run (mkPool [] [] (ch ++ tas) false rs (pn ++ msgs))).
Proof.
  induction rn as [|p rn IH]; intros ch rs pn Hcap.
  - exists [], []. rewrite !app_nil_r. constructor.
  - cbn [length] in Hcap.
    destruct (worker wPath useCache p) as [ta|msg] eqn:Hw.
    + destruct (IH (ch ++ [ta])%list rs pn) as (tas & msgs & Hrun).
      { rewrite length_app. cbn [length]. lia. }
      exists (ta :: tas), msgs.
      eapply steps_step.
      { apply (step_send wPath useCache cap p [] rn [] ch false rs pn ta Hw).
        lia. }
      cbn [app]. rewrite <- app_assoc in Hrun. exact Hrun.
    + destruct (IH ch rs (pn ++ [msg])%list) as (tas & msgs & Hrun).
      { lia. }
      exists tas, (msg :: msgs).
      eapply steps_step.
      { apply (step_panic wPath useCache cap p [] rn [] ch false rs pn msg
                 Hw). }
      cbn [app]. rewrite <- app_assoc in Hrun. exact Hrun.
Qed.

Lemma spawn_all (wPath : string) (useCache : bool) (cap : nat)
  (ps rn : list string) (ch rs : list testAnalysis) (cl : bool)
  (pn : list string) :
  clos_refl_trans_1n proc (step wPath useCache cap)
    (Run (mkPool ps rn ch cl rs pn))
    (Run (mkPool [] (rn ++ ps) ch cl rs pn)).
Proof.
  revert rn. induction ps as [|p ps IH]; intro rn.
  - rewrite app_nil_r. constructor.
  - eapply steps_step; [apply step_spawn|].
    replace (rn ++ p :: ps)%list with ((rn ++ [p]) ++ ps)%list
      by (rewrite <- app_assoc; reflexivity).
    apply IH.
Qed.

Lemma recv_all (wPath : string) (useCache : bool) (cap : nat)
  (ps rn : list string) (ch rs : list testAnalysis) (cl : bool)
  (pn : list string) :
  clos_refl_trans_1n proc (step wPath useCache cap)
    (Run (mkPool ps rn ch cl rs pn))
    (Run (mkPool ps rn [] cl (rs ++ ch) pn)).
Proof.
  revert rs. induction ch as [|ta ch IH]; intro rs.
  - rewrite app_nil_r. constructor.
  - eapply steps_step; [apply step_recv|].
    replace (rs ++ ta :: ch)%list with ((rs ++ [ta]) ++ ch)%list
      by (rewrite <- app_assoc; reflexivity).
    apply IH.
Qed.

(** Whatever the outputs, some run of the goroutines lets [execAllTests]
    return. *)
Lemma execAllTests_can_return (wPath : string) (paths : list string)
  (useCache : bool) :
  exists rs, execAllTests wPath paths useCache rs.
Proof.
  destruct paths as [|q qs].
  - exists [], []. constructor.
  - destruct (finish_all wPath useCache (length (q :: qs)) (q :: qs) [] [] [])
      as (tas & msgs & Hrun); [cbn [length]; lia|].
    exists tas, msgs. cbn [execAllTests_start].
    eapply steps_trans; [apply spawn_all|]. cbn [app].
    eapply steps_trans; [exact Hrun|]. cbn [app].
    eapply steps_step; [apply step_close|].
    eapply steps_trans; [apply recv_all|]. cbn [app].
    eapply steps_step; [apply step_return|]. constructor.
Qed.

(** The panic of a worker can end the process before anything else is
    done with the results. *)
Lemma execAllTests_can_crash (wPath : string) (paths : list string)
  (useCache : bool) (p msg : string) :
  In p paths ->
  panicsWith wPath useCache p msg ->
  clos_refl_trans_1n proc (step wPath useCache (length paths))
    (execAllTests_start paths) (Crash msg).
Proof.
  intros Hin Hw.
  destruct paths as [|q qs]; [destruct Hin|].
  cbn [execAllTests_start].
  eapply steps_trans; [apply spawn_all|]. cbn [app].
  apply in_split in Hin. destruct Hin as (r1 & r2 & ->).
  eapply steps_step; [apply step_panic; exact Hw|].
  eapply steps_step; [|constructor].
  apply step_crash. cbn [panics app]. now left.
Qed.

(** C4, as the code has it.  When the output of every member's
    subprocess can be parsed (whether the subprocess succeeded or not),
    [execAllTests] returns; whatever the order in which the goroutines run,
    what it returns has one record per member path, each produced from one
    path; and no run crashes or blocks before returning.  When the output
    of some member cannot be parsed, the panic of its worker can end the
    process; as the deferred [wg.Done()] runs while the panic unwinds,
    [execAllTests] can also return before that, and what it returns then
    has fewer records than there are paths: one for each member whose
    worker did not panic, and none for the member in question. *)
Theorem execAllTests_one_record_per_path
  (wPath : string) (paths : list string) (useCache : bool) :
  paths <> [] ->
  ((forall p, In p paths ->
      exists ex, testjson_ScanTestOutput (execTest p useCache) = Ok ex) ->
   (exists rs, execAllTests wPath paths useCache rs)
   /\ (forall rs, execAllTests wPath paths useCache rs ->
         length rs = length paths
         /\ exists ps, Permutation ps paths
                       /\ Forall2 (produces wPath useCache) ps rs)
   /\ (forall st,
         clos_refl_trans_1n proc (step wPath useCache (length paths))
           (execAllTests_start paths) st ->
         (exists rs, st = Exit rs [])
         \/ (exists st', step wPath useCache (length paths) st st')))
  /\ (forall p err,
        In p paths ->
        testjson_ScanTestOutput (execTest p useCache) = Err err ->
        clos_refl_trans_1n proc (step wPath useCache (length paths))
          (execAllTests_start paths)
          (Crash ("failed to scan testjson: " ++ err))
        /\ (exists rs, execAllTests wPath paths useCache rs)
        /\ (forall rs, execAllTests wPath paths useCache rs ->
              length rs < length paths
              /\ exists ps qs,
                   Permutation (ps ++ qs)%list paths
                   /\ Forall2 (produces wPath useCache) ps rs
                   /\ In p qs
                   /\ Forall (fun q => exists msg,
                                worker wPath useCache q = Panicked msg) qs)).
Proof.
  intros Hne. split.
  - intro Hparse.
    assert (Hall : forall p, In p paths ->
                     exists ta, produces wPath useCache p ta).
    { intros p Hin. destruct (Hparse p Hin) as [ex Hex].
      eexists. unfold produces, worker.
      apply analyzeTest_returns. exact Hex. }
    assert (Hnone : forall gone pending,
               Forall2 (panicsWith wPath useCache) gone pending ->
               (forall q, In q gone -> In q paths) ->
               gone = [] /\ pending = []).
    { intros gone pending Hg Hsub.
      destruct Hg as [|q msg gone pending Hq _]; [split; reflexivity|].
      destruct (Hall q (Hsub q (or_introl eq_refl))) as [ta Hta].
      unfold produces in Hta. unfold panicsWith in Hq. congruence. }
    split; [apply execAllTests_can_return|]. split.
    + intros rs Hrun.
      destruct (execAllTests_returned _ _ _ _ Hrun) as (ps & qs & Hp & Hf & Hq).
      assert (qs = []) as ->.
      { destruct qs as [|q qs]; [reflexivity|].
        inversion Hq as [|? ? [msg Hmsg] _]; subst.
        destruct (Hall q) as [ta Hta].
        - eapply Permutation_in; [exact Hp|].
          apply in_or_app. right. now left.
        - unfold produces in Hta. unfold panicsWith in Hmsg. congruence. }
      rewrite app_nil_r in Hp.
      split; [|exists ps; split; assumption].
      rewrite <- (Forall2_length Hf). apply Permutation_length. exact Hp.
    + intros st Hrun.
      pose proof (accounted_steps wPath paths useCache _ _ _ Hrun
                    (accounted_start wPath paths useCache)) as Hacc.
      destruct st as [s|msg|rs pending].
      * right. eapply accounted_progress; eassumption.
      * exfalso. simpl in Hacc. destruct Hacc as (p & Hin & Hp).
        destruct (Hall p Hin) as [ta Hta].
        unfold produces in Hta. unfold panicsWith in Hp. congruence.
      * left. simpl in Hacc. destruct Hacc as (recvd & gone & Hf & Hg & Hp).
        destruct (Hnone gone pending Hg) as [_ ->].
        -- intros q Hq. eapply Permutation_in; [exact Hp|].
           apply in_or_app. now right.
        -- eexists. reflexivity.
  - intros p err Hin Herr.
    assert (Hw : panicsWith wPath useCache p
                   ("failed to scan testjson: " ++ err)).
    { unfold panicsWith, worker, analyzeTest. rewrite Herr. reflexivity. }
    split; [eapply execAllTests_can_crash; eassumption|].
    split; [apply execAllTests_can_return|].
    intros rs Hrun.
    destruct (execAllTests_returned _ _ _ _ Hrun) as (ps & qs & Hp & Hf & Hq).
    assert (Hpq : In p qs).
    { assert (H : In p (ps ++ qs)%list)
        by (eapply Permutation_in; [apply Permutation_sym; exact Hp | exact Hin]).
      apply in_app_or in H. destruct H as [H|H]; [|exact H].
      exfalso. clear Hp Hq Hrun. induction Hf as [|q ta ps rs Hq _ IH].
      - destruct H.
      - destruct H as [->|H]; [|exact (IH H)].
        unfold produces in Hq. unfold panicsWith in Hw. congruence. }
    split.
    + apply Permutation_length in Hp. rewrite length_app in Hp.
      rewrite <- (Forall2_length Hf).
      destruct qs as [|q qs]; [destruct Hpq | cbn [length] in Hp; lia].
    + exists ps, qs. split; [assumption|]. split; [assumption|].
      split; [assumption|]. exact Hq.
Qed.

(** *** Paths *)

Lemma properName_inv (e : string) :
  properName e = true ->
  noSep e = true /\ e <> "" /\ e <> "." /\ e <> "..".
Proof.
  unfold properName. rewrite !andb_true_iff, !negb_true_iff, !String.eqb_neq.
  tauto.
Qed.


Lemma splitSep_noSep (e : string) :
  noSep e = true -> filepath.splitSep e = [e].
Proof.
  induction e as [|c e IH]; simpl; [reflexivity|].
  rewrite andb_true_iff, negb_true_iff. intros [Hc He].
  rewrite Hc, (IH He). reflexivity.
Qed.

Lemma splitSep_cons (e s : string) :
  noSep e = true ->
  filepath.splitSep (e ++ String "/" s) = e :: filepath.splitSep s.
Proof.
  induction e as [|c e IH]; simpl; [reflexivity|].
  rewrite andb_true_iff, negb_true_iff. intros [Hc He].
  rewrite Hc, (IH He). reflexivity.
Qed.

Lemma cutSep_noSep (e : string) :
  noSep e = true -> filepath.cutSep e = (e, "").
Proof.
  induction e as [|c e IH]; simpl; [reflexivity|].
  rewrite andb_true_iff, negb_true_iff. intros [Hc He].
  rewrite Hc, (IH He). reflexivity.
Qed.

Lemma cutSep_cons (e s : string) :
  noSep e = true -> filepath.cutSep (e ++ String "/" s) = (e, s).
Proof.
  induction e as [|c e IH]; simpl; [reflexivity|].
  rewrite andb_true_iff, negb_true_iff. intros [Hc He].
  rewrite Hc, (IH He). reflexivity.
Qed.

Lemma Join_cons (e : string) (es : list string) :
  es <> [] ->
  strings.Join (e :: es) "/" = e ++ String "/" (strings.Join es "/").
Proof. destruct es; [congruence | reflexivity]. Qed.

Lemma splitSep_Join (es : list string) :
  Forall (fun e => properName e = true) es -> es <> [] ->
  filepath.splitSep (strings.Join es "/") = es.
Proof.
  induction 1 as [|e es He _ IH]; [congruence|]. intros _.
  apply properName_inv in He. destruct He as [He _].
  destruct es as [|e' es].
  - simpl. now apply splitSep_noSep.
  - rewrite (Join_cons e (e' :: es)) by discriminate.
    rewrite splitSep_cons by assumption.
    rewrite IH by discriminate. reflexivity.
Qed.

Lemma cleanStep_proper (rooted : bool) (out : list string) (e : string) :
  properName e = true -> filepath.cleanStep rooted out e = e :: out.
Proof.
  intro H. apply properName_inv in H. destruct H as (_ & H1 & H2 & H3).
  unfold filepath.cleanStep.
  apply String.eqb_neq in H1, H2, H3. rewrite H1, H2, H3. reflexivity.
Qed.

Lemma clean_fold_proper (rooted : bool) (es out : list string) :
  Forall (fun e => properName e = true) es ->
  fold_left (filepath.cleanStep rooted) es out = (rev es ++ out)%list.
Proof.
  intro H. revert out. induction H as [|e es He _ IH]; intro out; simpl.
  - reflexivity.
  - rewrite cleanStep_proper by assumption.
    rewrite IH, <- app_assoc. reflexivity.
Qed.

Lemma Clean_rooted (s : string) :
  filepath.Clean (String "/" s)
  = String "/"
      (strings.Join
         (rev (fold_left (filepath.cleanStep true) (filepath.splitSep s) []))
         "/").
Proof. reflexivity. Qed.

(** A cleaned absolute path is left as it is by [Clean]. *)
Lemma Clean_rootedPath (es : list string) :
  Forall (fun e => properName e = true) es ->
  filepath.Clean (rootedPath es) = rootedPath es.
Proof.
  intro H. unfold rootedPath, filepath.Separator. rewrite Clean_rooted.
  destruct es as [|e es'].
  - reflexivity.
  - rewrite splitSep_Join by (assumption || discriminate).
    rewrite clean_fold_proper by assumption.
    rewrite app_nil_r, rev_involutive. reflexivity.
Qed.

Lemma cutSep_Join (e : string) (es : list string) :
  noSep e = true ->
  filepath.cutSep (strings.Join (e :: es) "/") = (e, strings.Join es "/").
Proof.
  intro He. destruct es as [|e' es].
  - simpl. now apply cutSep_noSep.
  - rewrite (Join_cons e (e' :: es)) by discriminate. now apply cutSep_cons.
Qed.

Lemma length_Join_cons (e : string) (es : list string) :
  String.length e + String.length (strings.Join es "/")
  <= String.length (strings.Join (e :: es) "/").
Proof.
  destruct es as [|e' es].
  - simpl. lia.
  - rewrite (Join_cons e (e' :: es)) by discriminate.
    rewrite length_append. simpl. lia.
Qed.

Lemma length_proper (e : string) :
  properName e = true -> 0 < String.length e.
Proof.
  intro H. apply properName_inv in H. destruct H as (_ & H & _).
  destruct e; [congruence | simpl; lia].
Qed.

Lemma length_Join_app (rs cs : list string) :
  Forall (fun e => properName e = true) cs -> cs <> [] ->
  String.length (strings.Join rs "/")
  < String.length (strings.Join (rs ++ cs) "/").
Proof.
  intros Hcs Hne. induction rs as [|r rs IH].
  - destruct cs as [|c cs]; [congruence|].
    inversion Hcs as [|? ? Hc _]; subst. apply length_proper in Hc.
    pose proof (length_Join_cons c cs). simpl (String.length (strings.Join [] "/")).
    simpl app. lia.
  - assert (Hne' : (rs ++ cs)%list <> [])
      by (destruct rs; [assumption | discriminate]).
    simpl app. rewrite (Join_cons r (rs ++ cs)) by assumption.
    rewrite length_append.
    change (String.length (String "/" (strings.Join (rs ++ cs) "/")))
      with (S (String.length (strings.Join (rs ++ cs) "/"))).
    destruct rs as [|r' rs].
    + change (strings.Join [r] "/") with r. lia.
    + rewrite (Join_cons r (r' :: rs)) by discriminate.
      rewrite length_append.
      change (String.length (String "/" (strings.Join (r' :: rs) "/")))
        with (S (String.length (strings.Join (r' :: rs) "/"))).
      lia.
Qed.

(** The loop of [Rel] on a path and a path below it: the common elements
    are passed, nothing of the base is left. *)
Lemma relLoop_below (rs cs : list string) (fuel : nat) :
  Forall (fun e => properName e = true) rs ->
  String.length (strings.Join rs "/") <= fuel ->
  filepath.relLoop fuel (strings.Join rs "/") (strings.Join (rs ++ cs) "/")
  = ("", "", strings.Join cs "/").
Proof.
  intro Hrs. revert fuel.
  induction Hrs as [|r rs Hr _ IH]; intros fuel Hfuel.
  - destruct fuel; reflexivity.
  - pose proof (length_proper r Hr) as Hlen.
    pose proof (length_Join_cons r rs) as Hl1.
    destruct fuel as [|fuel]; [lia|].
    apply properName_inv in Hr. destruct Hr as (Hns & Hne & _).
    simpl app. cbn [filepath.relLoop].
    rewrite !cutSep_Join by assumption.
    assert (E1 : String.eqb (strings.Join (r :: rs) "/") "" = false).
    { apply String.eqb_neq. intro E. rewrite E in Hl1. simpl in Hl1. lia. }
    assert (E2 : String.eqb (strings.Join (r :: rs ++ cs) "/") "" = false).
    { apply String.eqb_neq. intro E.
      pose proof (length_Join_cons r (rs ++ cs)) as Hl2.
      rewrite E in Hl2. simpl in Hl2. lia. }
    rewrite E1, E2, String.eqb_refl. simpl orb. cbv iota.
    apply IH. lia.
Qed.

Lemma relLoop_rooted (fuel : nat) (a b : string) :
  filepath.relLoop (S fuel) (String "/" a) (String "/" b)
  = filepath.relLoop fuel a b.
Proof. reflexivity. Qed.

Lemma Rel_below (wPath path : string) (rs cs : list string) :
  Forall (fun e => properName e = true) rs ->
  Forall (fun e => properName e = true) cs ->
  filepath.Clean wPath = rootedPath rs ->
  filepath.Clean path = rootedPath (rs ++ cs) ->
  filepath.Rel wPath path
  = Ok (match cs with [] => "." | _ => strings.Join cs "/" end).
Proof.
  intros Hrs Hcs Hw Hp. unfold filepath.Rel. rewrite Hw, Hp.
  destruct cs as [|c cs].
  - rewrite app_nil_r, String.eqb_refl. reflexivity.
  - assert (Hlt := length_Join_app rs (c :: cs) Hcs ltac:(discriminate)).
    assert (E : String.eqb (rootedPath (rs ++ c :: cs)) (rootedPath rs)
                = false).
    { apply String.eqb_neq. unfold rootedPath. intro E.
      injection E as E. rewrite E in Hlt. lia. }
    rewrite E. unfold rootedPath, filepath.Separator.
    replace (String.eqb (String "/" (strings.Join rs "/")) ".")
      with false by reflexivity.
    cbv iota.
    replace (filepath.isRooted (String "/" (strings.Join rs "/")))
      with true by reflexivity.
    replace (filepath.isRooted
               (String "/" (strings.Join (rs ++ c :: cs) "/")))
      with true by reflexivity.
    cbn [Bool.eqb negb]. cbv iota.
    cbn [String.length]. rewrite relLoop_rooted.
    rewrite relLoop_below by (assumption || lia).
    reflexivity.
Qed.

Lemma splitSep_Join_slash (rs : list string) (x : string) :
  Forall (fun e => properName e = true) rs -> rs <> [] ->
  filepath.splitSep (strings.Join rs "/" ++ String "/" x)
  = (rs ++ filepath.splitSep x)%list.
Proof.
  induction 1 as [|r rs Hr _ IH]; [congruence|]. intros _.
  apply properName_inv in Hr. destruct Hr as [Hr _].
  destruct rs as [|r' rs].
  - change (strings.Join [r] "/") with r.
    rewrite splitSep_cons by assumption. reflexivity.
  - rewrite (Join_cons r (r' :: rs)) by discriminate.
    rewrite append_assoc.
    change (String "/" (strings.Join (r' :: rs) "/") ++ String "/" x)
      with (String "/" (strings.Join (r' :: rs) "/" ++ String "/" x)).
    rewrite splitSep_cons by assumption.
    rewrite IH by discriminate. reflexivity.
Qed.

Lemma Clean_rooted_below (rs : list string) (x : string) :
  Forall (fun e => properName e = true) rs ->
  filepath.Clean (rootedPath rs ++ String "/" x)
  = String "/"
      (strings.Join
         (rev (fold_left (filepath.cleanStep true) (filepath.splitSep x)
                 (rev rs)))
         "/").
Proof.
  intro Hrs. unfold rootedPath, filepath.Separator.
  change (String "/" (strings.Join rs "/") ++ String "/" x)
    with (String "/" (strings.Join rs "/" ++ String "/" x)).
  rewrite Clean_rooted.
  destruct rs as [|r rs].
  - reflexivity.
  - rewrite splitSep_Join_slash by (assumption || discriminate).
    rewrite fold_left_app.
    rewrite (clean_fold_proper true (r :: rs) []) by assumption.
    rewrite app_nil_r. reflexivity.
Qed.

(** C8. For a member path under the workspace root (cleaned, the
    elements of the root followed by further elements), the label is the
    path relative to the root: those further elements separated by [/]
    (a single dot when there is none).  Joined to the root it gives the
    member path back. *)
Theorem removeRelativePath_under_root
  (wPath path : string) (rs cs : list string) :
  Forall (fun e => properName e = true) rs ->
  Forall (fun e => properName e = true) cs ->
  filepath.Clean wPath = rootedPath rs ->
  filepath.Clean path = rootedPath (rs ++ cs) ->
  removeRelativePath wPath path
  = match cs with [] => "." | _ => strings.Join cs "/" end
  /\ filepath.Join (filepath.Clean wPath) (removeRelativePath wPath path)
     = filepath.Clean path.
Proof.
  intros Hrs Hcs Hw Hp.
  assert (Hlabel : removeRelativePath wPath path
                   = match cs with [] => "." | _ => strings.Join cs "/" end).
  { unfold removeRelativePath.
    rewrite (Rel_below wPath path rs cs) by assumption. reflexivity. }
  split; [exact Hlabel|].
  rewrite Hlabel, Hw, Hp. unfold filepath.Join.
  replace (String.eqb (rootedPath rs) "") with false by reflexivity.
  cbn [negb]. cbv iota.
  match goal with
  | |- filepath.Clean (_ ++ "/" ++ ?l) = _ =>
      change (filepath.Clean (rootedPath rs ++ String "/" l)
              = rootedPath (rs ++ cs))
  end.
  rewrite Clean_rooted_below by assumption.
  destruct cs as [|c cs].
  - change (fold_left (filepath.cleanStep true) (filepath.splitSep ".")
              (rev rs))
      with (rev rs).
    rewrite rev_involutive, app_nil_r. reflexivity.
  - rewrite splitSep_Join by (assumption || discriminate).
    rewrite clean_fold_proper by assumption.
    rewrite <- rev_app_distr, rev_involutive. reflexivity.
Qed.

(** *** Walking towards the root *)

Lemma find_workFile_none (entries : list string) :
  ~ In workFile entries ->
  find (fun e => String.eqb e workFile) entries = None.
Proof.
  intro H. destruct (find _ entries) as [e|] eqn:E; [|reflexivity].
  apply find_some in E. destruct E as [Hin He].
  apply String.eqb_eq in He. subst e. contradiction.
Qed.

Lemma find_workFile_some (entries : list string) :
  In workFile entries ->
  find (fun e => String.eqb e workFile) entries = Some workFile.
Proof.
  intro H. destruct (find _ entries) as [e|] eqn:E.
  - apply find_some in E. destruct E as [_ He].
    apply String.eqb_eq in He. now subst e.
  - exfalso. apply (find_none _ _ E) in H.
    now rewrite String.eqb_refl in H.
Qed.

Lemma Contains_sep_noSep (e : string) :
  noSep e = true -> strings.Contains e "/" = false.
Proof.
  induction e as [|c e IH]; [reflexivity|].
  cbn [noSep]. rewrite andb_true_iff, negb_true_iff. intros [Hc He].
  cbn [strings.Contains strings.HasPrefix].
  unfold filepath.Separator in Hc. rewrite Ascii.eqb_sym, Hc.
  cbn [andb orb]. now apply IH.
Qed.

Lemma Contains_sep_app (a b : string) :
  strings.Contains (a ++ String "/" b) "/" = true.
Proof.
  induction a as [|c a IH].
  - destruct b; reflexivity.
  - cbn [append strings.Contains]. rewrite IH. apply orb_true_r.
Qed.

Lemma dirPart_noSep (e : string) :
  noSep e = true -> filepath.dirPart e = "".
Proof.
  intro H. destruct e as [|c e]; [reflexivity|].
  cbn [filepath.dirPart]. now rewrite (Contains_sep_noSep _ H).
Qed.

Lemma dirPart_app (a e : string) :
  noSep e = true -> filepath.dirPart (a ++ String "/" e) = a ++ "/".
Proof.
  intro He. induction a as [|c a IH].
  - pose proof (Contains_sep_app "" e) as Hc. cbn [append] in Hc.
    cbn [append]. unfold filepath.dirPart; fold filepath.dirPart.
    rewrite Hc. now rewrite dirPart_noSep.
  - change (String c a ++ String "/" e) with (String c (a ++ String "/" e)).
    pose proof (Contains_sep_app (String c a) e) as Hc.
    change (String c a ++ String "/" e) with (String c (a ++ String "/" e))
      in Hc.
    unfold filepath.dirPart; fold filepath.dirPart.
    rewrite Hc, IH. reflexivity.
Qed.

Lemma Join_snoc (rs : list string) (r : string) :
  rs <> [] ->
  strings.Join (rs ++ [r]) "/" = strings.Join rs "/" ++ String "/" r.
Proof.
  induction rs as [|a rs IH]; [congruence|]. intros _.
  destruct rs as [|b rs].
  - reflexivity.
  - change ((a :: b :: rs) ++ [r])%list with (a :: ((b :: rs) ++ [r]))%list.
    rewrite (Join_cons a ((b :: rs) ++ [r])) by discriminate.
    rewrite IH by discriminate.
    rewrite (Join_cons a (b :: rs)) by discriminate.
    rewrite append_assoc. reflexivity.
Qed.

(** The parent of a cleaned absolute path. *)
Lemma Dir_rootedPath (rs : list string) (r : string) :
  Forall (fun e => properName e = true) (rs ++ [r]) ->
  filepath.Dir (rootedPath (rs ++ [r])) = rootedPath rs.
Proof.
  intro H. apply Forall_app in H. destruct H as [Hrs Hr].
  inversion Hr as [|? ? Hr' _]; subst.
  apply properName_inv in Hr'. destruct Hr' as [Hns _].
  unfold filepath.Dir. destruct rs as [|a rs].
  - unfold rootedPath, filepath.Separator.
    change (String "/" (strings.Join ([] ++ [r]) "/"))
      with ("" ++ String "/" r).
    rewrite dirPart_app by assumption. reflexivity.
  - unfold rootedPath at 1. unfold filepath.Separator.
    rewrite Join_snoc by discriminate.
    change (String "/" (strings.Join (a :: rs) "/" ++ String "/" r))
      with (String "/" (strings.Join (a :: rs) "/") ++ String "/" r).
    rewrite dirPart_app by assumption.
    change (String "/" (strings.Join (a :: rs) "/") ++ "/")
      with (rootedPath (a :: rs) ++ String "/" "").
    rewrite Clean_rooted_below by assumption.
    change (fold_left (filepath.cleanStep true) (filepath.splitSep "")
              (rev (a :: rs)))
      with (rev (a :: rs)).
    rewrite rev_involutive. reflexivity.
Qed.

Lemma len_rootedPath (rs : list string) :
  Forall (fun e => properName e = true) rs ->
  (strings.len (rootedPath rs) = 1)%Z <-> rs = [].
Proof.
  intro H. split.
  - destruct rs as [|r rs]; [reflexivity|]. intro E. exfalso.
    inversion H as [|? ? Hr _]; subst. apply length_proper in Hr.
    pose proof (length_Join_cons r rs).
    unfold strings.len, rootedPath in E. cbn [String.length] in E. lia.
  - intros ->. reflexivity.
Qed.

Lemma length_rootedPath (rs : list string) :
  Forall (fun e => properName e = true) rs ->
  length rs < String.length (rootedPath rs).
Proof.
  unfold rootedPath. cbn [String.length].
  induction 1 as [|r rs Hr _ IH]; [simpl; lia|].
  apply length_proper in Hr. pose proof (length_Join_cons r rs).
  cbn [length]. lia.
Qed.

Lemma walkUp_found (fs : FS) (d : string) (fuel : nat) :
  hasWorkFile fs d ->
  walkUp (S fuel) fs d
  = Some (d, fst (readWorkspaceFile fs d workFile),
          snd (readWorkspaceFile fs d workFile)).
Proof.
  intros (entries & Hdir & Hin). cbn [walkUp]. rewrite Hdir.
  rewrite find_workFile_some by assumption.
  destruct (readWorkspaceFile fs d workFile). reflexivity.
Qed.

Lemma walkUp_parent (fs : FS) (rs : list string) (r : string) (fuel : nat) :
  Forall (fun e => properName e = true) (rs ++ [r]) ->
  lacksWorkFile fs (rootedPath (rs ++ [r])) ->
  walkUp (S fuel) fs (rootedPath (rs ++ [r]))
  = match rs with
    | [] => Some ("", [], [])
    | _ => walkUp fuel fs (rootedPath rs)
    end.
Proof.
  intros Hp (entries & Hdir & Hin). cbn [walkUp]. rewrite Hdir.
  rewrite find_workFile_none by assumption.
  rewrite Dir_rootedPath by assumption.
  apply Forall_app in Hp. destruct Hp as [Hrs _].
  destruct (Z.eqb_spec (strings.len (rootedPath rs)) 1) as [E|N].
  - apply len_rootedPath in E; [|assumption]. now subst rs.
  - destruct rs; [|reflexivity]. exfalso. apply N. reflexivity.
Qed.

(** From a directory below [above] to [above], when no directory on the
    way has the file. *)
Lemma walkUp_climb (fs : FS) (above below : list string) (fuel : nat) :
  above <> [] ->
  Forall (fun e => properName e = true) (above ++ below) ->
  (forall b1 b2, below = (b1 ++ b2)%list -> b1 <> [] ->
     lacksWorkFile fs (rootedPath (above ++ b1))) ->
  walkUp (length below + fuel) fs (rootedPath (above ++ below))
  = walkUp fuel fs (rootedPath above).
Proof.
  intro Hne. induction below as [|x b IH] using rev_ind; intros Hp Hlack.
  - rewrite app_nil_r. reflexivity.
  - rewrite length_app. cbn [length].
    replace (length b + 1 + fuel) with (S (length b + fuel)) by lia.
    rewrite app_assoc in Hp |- *.
    rewrite walkUp_parent; [|assumption|].
    + replace (match (above ++ b)%list with
               | [] => Some ("", [], [])
               | _ => walkUp (length b + fuel) fs (rootedPath (above ++ b))
               end)
        with (walkUp (length b + fuel) fs (rootedPath (above ++ b)))
        by (destruct above; [congruence | reflexivity]).
      apply IH.
      * apply Forall_app in Hp. tauto.
      * intros b1 b2 Hb Hb1. apply (Hlack b1 (b2 ++ [x])%list).
        -- rewrite Hb, app_assoc. reflexivity.
        -- assumption.
    + rewrite <- app_assoc. apply (Hlack (b ++ [x])%list []).
      * now rewrite app_nil_r.
      * destruct b; discriminate.
Qed.

(** Where the walk finds the file: in the nearest of the current
    directory and its ancestors below the root that has it (in the root
    only when it is the current directory). *)
Lemma getWorkspacePaths_nearest (fs : FS) (above below : list string) :
  Getwd fs = Ok (rootedPath (above ++ below)) ->
  above <> [] \/ below = [] ->
  Forall (fun e => properName e = true) (above ++ below) ->
  (forall b1 b2, below = (b1 ++ b2)%list -> b1 <> [] ->
     lacksWorkFile fs (rootedPath (above ++ b1))) ->
  hasWorkFile fs (rootedPath above) ->
  getWorkspacePaths fs
  = Some (rootedPath above,
          fst (readWorkspaceFile fs (rootedPath above) workFile),
          snd (readWorkspaceFile fs (rootedPath above) workFile)).
Proof.
  intros Hwd Hroot Hp Hlack Hhas. unfold getWorkspacePaths. rewrite Hwd.
  destruct Hroot as [Hne| ->].
  - pose proof (length_rootedPath _ Hp) as Hlen. rewrite length_app in Hlen.
    replace (S (String.length (rootedPath (above ++ below))))
      with (length below
            + S (String.length (rootedPath (above ++ below)) - length below))
      by lia.
    rewrite walkUp_climb by assumption.
    now apply walkUp_found.
  - rewrite app_nil_r. now apply walkUp_found.
Qed.

(** C2, where the code departs from it.  When the walk starts below the
    root and no directory from the current one up to the one just below
    the root has the file, [getWorkspacePaths] returns the empty path and
    no package whatever the root directory contains: the root is never
    listed. *)
Theorem getWorkspacePaths_root_not_listed (fs : FS) (rs : list string) :
  rs <> [] ->
  Forall (fun e => properName e = true) rs ->
  Getwd fs = Ok (rootedPath rs) ->
  (forall b1 b2, rs = (b1 ++ b2)%list -> b1 <> [] ->
     lacksWorkFile fs (rootedPath b1)) ->
  getWorkspacePaths fs = Some ("", [], []).
Proof.
  intros Hne Hp Hwd Hlack. unfold getWorkspacePaths. rewrite Hwd.
  destruct rs as [|r below]; [congruence|].
  pose proof (length_rootedPath _ Hp) as Hlen. cbn [length] in Hlen.
  replace (S (String.length (rootedPath (r :: below))))
    with (length below
          + S (String.length (rootedPath (r :: below)) - length below))
    by lia.
  rewrite (walkUp_climb fs [r] below).
  - rewrite (walkUp_parent fs [] r).
    + reflexivity.
    + inversion Hp; subst. repeat constructor; assumption.
    + apply (Hlack [r] below); [reflexivity | discriminate].
  - discriminate.
  - exact Hp.
  - intros b1 b2 Hb Hb1. apply (Hlack ([r] ++ b1)%list b2).
    + rewrite Hb. reflexivity.
    + discriminate.
Qed.

(** From the root itself the root is listed. *)
Lemma getWorkspacePaths_at_root (fs : FS) :
  Getwd fs = Ok "/" ->
  (hasWorkFile fs "/" ->
   getWorkspacePaths fs
   = Some ("/", fst (readWorkspaceFile fs "/" workFile),
           snd (readWorkspaceFile fs "/" workFile)))
  /\ (lacksWorkFile fs "/" -> getWorkspacePaths fs = Some ("", [], [])).
Proof.
  intro Hwd. unfold getWorkspacePaths. rewrite Hwd. split.
  - intro H. now apply walkUp_found.
  - intros (entries & Hdir & Hin). cbn [walkUp String.length].
    rewrite Hdir. rewrite find_workFile_none by assumption. reflexivity.
Qed.

(** *** The walk ends *)

Lemma splitSep_not_nil (s : string) : filepath.splitSep s <> [].
Proof.
  destruct s as [|c s]; simpl; [discriminate|].
  destruct (Ascii.eqb c filepath.Separator); [discriminate|].
  destruct (filepath.splitSep s); discriminate.
Qed.

Lemma weight_cons (e : string) (es : list string) :
  weight (e :: es) = S (String.length e) + weight es.
Proof. reflexivity. Qed.

Lemma weight_app (a b : list string) : weight (a ++ b) = weight a + weight b.
Proof.
  induction a as [|x a IH]; [reflexivity|].
  cbn [app]. rewrite !weight_cons, IH. lia.
Qed.

Lemma weight_splitSep (s : string) :
  weight (filepath.splitSep s) = S (String.length s).
Proof.
  induction s as [|c s IH]; [reflexivity|].
  cbn [filepath.splitSep].
  destruct (Ascii.eqb c filepath.Separator).
  - rewrite weight_cons, IH. reflexivity.
  - destruct (filepath.splitSep s) as [|e es] eqn:E.
    + now apply splitSep_not_nil in E.
    + rewrite weight_cons in IH |- *. cbn [String.length] in *. lia.
Qed.

Lemma weight_Join (es : list string) :
  es <> [] -> S (String.length (strings.Join es "/")) = weight es.
Proof.
  induction es as [|e es IH]; [congruence|]. intros _.
  destruct es as [|e' es].
  - cbn. lia.
  - rewrite (Join_cons e (e' :: es)) by discriminate.
    rewrite length_append. cbn [String.length].
    rewrite (weight_cons e (e' :: es)).
    rewrite <- IH by discriminate. lia.
Qed.

Lemma weight_rev (es : list string) : weight (rev es) = weight es.
Proof.
  induction es as [|e es IH]; [reflexivity|].
  cbn [rev]. rewrite weight_app, IH, !weight_cons. cbn. lia.
Qed.

Lemma weight_cleanStep (rooted : bool) (out : list string) (e : string) :
  weight (filepath.cleanStep rooted out e) <= weight out + S (String.length e).
Proof.
  unfold filepath.cleanStep.
  destruct (String.eqb e "" || String.eqb e "."); [lia|].
  destruct (String.eqb e "..").
  - destruct out as [|top rest].
    + destruct rooted; cbn; lia.
    + destruct (String.eqb top ".."); rewrite ?weight_cons; lia.
  - rewrite weight_cons. lia.
Qed.

Lemma weight_clean_fold (rooted : bool) (es out : list string) :
  weight (fold_left (filepath.cleanStep rooted) es out)
  <= weight out + weight es.
Proof.
  revert out. induction es as [|e es IH]; intro out.
  - cbn [fold_left]. change (weight []) with 0. lia.
  - cbn [fold_left]. specialize (IH (filepath.cleanStep rooted out e)).
    pose proof (weight_cleanStep rooted out e).
    rewrite weight_cons. lia.
Qed.

(** [Clean] does not lengthen a path. *)
Lemma length_Clean (s : string) :
  s <> "" -> String.length (filepath.Clean s) <= String.length s.
Proof.
  intro Hne. unfold filepath.Clean.
  apply String.eqb_neq in Hne. rewrite Hne.
  destruct s as [|c s]; [discriminate|].
  cbn [filepath.isRooted].
  destruct (Ascii.eqb c filepath.Separator) eqn:Ec.
  - cbn [filepath.splitSep]. rewrite Ec. cbn [fold_left].
    change (filepath.cleanStep true [] "") with (@nil string).
    pose proof (weight_clean_fold true (filepath.splitSep s) []) as Hw.
    rewrite weight_splitSep in Hw. cbn [String.length].
    destruct (fold_left (filepath.cleanStep true) (filepath.splitSep s) [])
      as [|o out] eqn:E.
    + cbn. lia.
    + rewrite <- (weight_rev (o :: out)) in Hw.
      rewrite <- weight_Join in Hw;
        [change (weight []) with 0 in Hw; cbn [String.length] in Hw |- *;
         lia|].
      cbn [rev]. destruct (rev out); discriminate.
  - pose proof (weight_clean_fold false (filepath.splitSep (String c s)) [])
      as Hw.
    rewrite weight_splitSep in Hw.
    destruct (fold_left (filepath.cleanStep false)
                (filepath.splitSep (String c s)) []) as [|o out] eqn:E.
    + cbn. lia.
    + rewrite <- (weight_rev (o :: out)) in Hw.
      rewrite <- weight_Join in Hw;
        [change (weight []) with 0 in Hw; cbn [String.length] in Hw |- *;
         lia|].
      cbn [rev]. destruct (rev out); discriminate.
Qed.

Lemma splitSep_snoc_sep (s : string) :
  filepath.splitSep (s ++ "/") = (filepath.splitSep s ++ [""])%list.
Proof.
  induction s as [|c s IH]; [reflexivity|].
  cbn [append filepath.splitSep]. rewrite IH.
  destruct (Ascii.eqb c filepath.Separator); [reflexivity|].
  destruct (filepath.splitSep s) as [|e es] eqn:E; [|reflexivity].
  now apply splitSep_not_nil in E.
Qed.

(** A trailing separator is dropped. *)
Lemma Clean_snoc_sep (s : string) :
  s <> "" -> filepath.Clean (s ++ "/") = filepath.Clean s.
Proof.
  intro Hne. unfold filepath.Clean.
  destruct s as [|c s]; [congruence|].
  change (String.eqb (String c s ++ "/") "") with false.
  change (String.eqb (String c s) "") with false. cbv iota.
  change (filepath.isRooted (String c s ++ "/"))
    with (filepath.isRooted (String c s)).
  rewrite splitSep_snoc_sep, fold_left_app. reflexivity.
Qed.

Lemma dirPart_empty (p : string) :
  strings.Contains p "/" = false -> filepath.dirPart p = "".
Proof.
  intro H. destruct p as [|c p]; [reflexivity|].
  unfold filepath.dirPart; fold filepath.dirPart. now rewrite H.
Qed.

Lemma dirPart_cases (p : string) :
  filepath.dirPart p = ""
  \/ exists q, filepath.dirPart p = q ++ "/"
               /\ String.length q < String.length p.
Proof.
  induction p as [|c p IH]; [now left|].
  unfold filepath.dirPart; fold filepath.dirPart.
  destruct (strings.Contains (String c p) "/") eqn:Hc; [|now left].
  right. destruct IH as [E|(q & E & Hq)].
  - destruct (strings.Contains p "/") eqn:Hp.
    + exfalso. destruct p as [|d p]; [discriminate|].
      unfold filepath.dirPart in E; fold filepath.dirPart in E.
      rewrite Hp in E. discriminate.
    + cbn [strings.Contains strings.HasPrefix] in Hc. rewrite Hp in Hc.
      rewrite orb_false_r, andb_true_iff in Hc. destruct Hc as [Hc _].
      apply Ascii.eqb_eq in Hc. subst c.
      exists "". rewrite E. split; [reflexivity | cbn; lia].
  - exists (String c q). rewrite E. split; [reflexivity | cbn; lia].
Qed.

(** The parent is the one-byte path ([/] or [.]) or shorter than the
    path. *)
Lemma Dir_shorter (p : string) :
  (strings.len (filepath.Dir p) = 1)%Z
  \/ String.length (filepath.Dir p) < String.length p.
Proof.
  unfold filepath.Dir.
  destruct (dirPart_cases p) as [E|(q & E & Hq)]; rewrite E.
  - now left.
  - destruct q as [|c q]; [now left|]. right.
    rewrite Clean_snoc_sep by discriminate.
    pose proof (length_Clean (String c q) ltac:(discriminate)). lia.
Qed.

Lemma walkUp_total (fs : FS) (fuel : nat) (path : string) :
  String.length path < fuel -> walkUp fuel fs path <> None.
Proof.
  revert path. induction fuel as [|fuel IH]; intros path Hlen; [lia|].
  cbn [walkUp].
  destruct (ReadDir fs path) as [entries|e]; [|discriminate].
  destruct (find _ entries) as [e|].
  - destruct (readWorkspaceFile fs path e). discriminate.
  - destruct (Z.eqb_spec (strings.len (filepath.Dir path)) 1) as [E|N];
      [discriminate|].
    apply IH. destruct (Dir_shorter path) as [E|Hlt]; [contradiction | lia].
Qed.

(** [getWorkspacePaths] returns, whatever the file system. *)
Lemma getWorkspacePaths_total (fs : FS) :
  exists wPath paths log, getWorkspacePaths fs = Some (wPath, paths, log).
Proof.
  unfold getWorkspacePaths.
  destruct (Getwd fs) as [path|e]; [|now eexists _, _, _].
  pose proof (walkUp_total fs (S (String.length path)) path
                ltac:(lia)) as H.
  destruct (walkUp (S (String.length path)) fs path) as [[[w ps] l]|];
    [now eexists _, _, _ | congruence].
Qed.

(** *** More on the walk and on the workspace file *)

(** A directory that cannot be listed ends the walk: nothing is returned
    and the error is logged, whatever the directories above it contain. *)
Theorem getWorkspacePaths_listing_error
  (fs : FS) (above below : list string) (e : string) :
  Getwd fs = Ok (rootedPath (above ++ below)) ->
  above <> [] \/ below = [] ->
  Forall (fun e => properName e = true) (above ++ below) ->
  (forall b1 b2, below = (b1 ++ b2)%list -> b1 <> [] ->
     lacksWorkFile fs (rootedPath (above ++ b1))) ->
  ReadDir fs (rootedPath above) = Err e ->
  getWorkspacePaths fs = Some ("", [], [e]).
Proof.
  intros Hwd Hroot Hp Hlack Herr. unfold getWorkspacePaths. rewrite Hwd.
  destruct Hroot as [Hne| ->].
  - pose proof (length_rootedPath _ Hp) as Hlen. rewrite length_app in Hlen.
    replace (S (String.length (rootedPath (above ++ below))))
      with (length below
            + S (String.length (rootedPath (above ++ below)) - length below))
      by lia.
    rewrite walkUp_climb by assumption.
    cbn [walkUp]. rewrite Herr. reflexivity.
  - rewrite app_nil_r. cbn [walkUp]. rewrite Herr. reflexivity.
Qed.

Lemma first_opening (lines : list string) :
  Forall (fun l => strings.HasPrefix l "use (" = false) lines
  \/ exists pre opening rest,
       lines = (pre ++ opening :: rest)%list
       /\ Forall (fun l => strings.HasPrefix l "use (" = false) pre
       /\ strings.HasPrefix opening "use (" = true.
Proof.
  induction lines as [|l ls IH]; [left; constructor|].
  destruct (strings.HasPrefix l "use (") eqn:Hl.
  - right. exists [], l, ls. split; [reflexivity|]. split; [constructor|].
    exact Hl.
  - destruct IH as [IH|(pre & opening & rest & -> & Hpre & Hop)].
    + left. constructor; assumption.
    + right. exists (l :: pre), opening, rest.
      split; [reflexivity|]. split; [|exact Hop].
      constructor; assumption.
Qed.

(** Every package returned comes from a line of a file that was opened
    and scanned to its end without an error: it is the trimmed text,
    joined with [path], of a line without a closing parenthesis that comes
    after the first line starting with the opening token.  So nothing is
    returned when the file cannot be opened or when the scan fails. *)
Theorem readWorkspaceFile_members_from_lines
  (fs : FS) (path filename p : string) :
  In p (fst (readWorkspaceFile fs path filename)) ->
  exists f pre opening rest line,
    Open fs (filepath.Join path filename) = Ok f
    /\ scanner_Err f = None
    /\ bufio.ScanLines (fileData f) = (pre ++ opening :: rest)%list
    /\ Forall (fun l => strings.HasPrefix l "use (" = false) pre
    /\ strings.HasPrefix opening "use (" = true
    /\ In line rest
    /\ strings.Contains line ")" = false
    /\ p = filepath.Join path (strings_TrimSpace line).
Proof.
  unfold readWorkspaceFile.
  destruct (Open fs (filepath.Join path filename)) as [f|e]; [|intros []].
  destruct (scanner_Err f) eqn:Herr; [intros []|]. cbn [fst].
  destruct (first_opening (bufio.ScanLines (fileData f)))
    as [Hnone|(pre & opening & rest & Hlines & Hpre & Hop)].
  - rewrite scan_before_block by assumption. intros [].
  - rewrite Hlines, scan_lines by assumption. cbn [snd]. intro H.
    apply in_map_iff in H. destruct H as (line & Hp & Hin).
    apply filter_In in Hin. destruct Hin as [Hin Hc].
    apply negb_true_iff in Hc.
    exists f, pre, opening, rest, line.
    split; [reflexivity|]. split; [exact Herr|]. split; [assumption|].
    split; [assumption|]. split; [assumption|]. split; [assumption|].
    split; [assumption | now symmetry].
Qed.

(** A line of 65536 bytes or more stops the scan: no package is returned,
    not even those read before it, and the scanner's error is logged. *)
Theorem readWorkspaceFile_line_too_long
  (fs : FS) (path filename : string) (f : File) (l : string) :
  Open fs (filepath.Join path filename) = Ok f ->
  In l (bufio.rawLines (fileData f)) ->
  (bufio.MaxScanTokenSize <= strings.len l)%Z ->
  readWorkspaceFile fs path filename
  = ([], bufio.ErrTooLong :: logErr (fileCloseErr f)).
Proof.
  intros Hopen Hin Hlen. unfold readWorkspaceFile. rewrite Hopen.
  assert (E : scanner_Err f = Some bufio.ErrTooLong).
  { unfold scanner_Err, bufio.tooLong.
    replace (existsb _ (bufio.rawLines (fileData f))) with true;
      [reflexivity|].
    symmetry. apply existsb_exists. exists l. split; [assumption|].
    apply Z.leb_le. exact Hlen. }
  rewrite E. reflexivity.
Qed.

(** *** More on the goroutines *)

Lemma send_all (wPath : string) (useCache : bool) (cap : nat)
  (ps : list string) (tas : list testAnalysis) :
  Forall2 (produces wPath useCache) ps tas ->
  forall (rn : list string) (ch rs : list testAnalysis) (pn : list string),
    Permutation ps rn ->
    length ch + length ps <= cap ->
    clos_refl_trans_1n proc (step wPath useCache cap)
      (Run (mkPool [] rn ch false rs pn))
      (Run (mkPool [] [] (ch ++ tas) false rs pn)).
Proof.
  induction 1 as [|p ta ps tas Hp _ IH]; intros rn ch rs pn Hperm Hcap.
  - apply Permutation_nil in Hperm. subst rn. rewrite app_nil_r. constructor.
  - assert (Hin : In p rn) by (eapply Permutation_in; [exact Hperm | now left]).
    apply in_split in Hin. destruct Hin as (r1 & r2 & ->).
    apply Permutation_cons_app_inv in Hperm. cbn [length] in Hcap.
    eapply steps_step.
    { apply (step_send wPath useCache cap p r1 r2 [] ch false rs pn ta Hp).
      lia. }
    replace (ch ++ ta :: tas)%list with ((ch ++ [ta]) ++ tas)%list
      by (rewrite <- app_assoc; reflexivity).
    apply IH; [assumption|]. rewrite length_app. cbn [length]. lia.
Qed.

(** The records can come back in any order: for every arrangement of the
    member paths there is a run of [execAllTests] that returns the records
    in that order. *)
Theorem execAllTests_any_order (wPath : string) (paths : list string)
  (useCache : bool) (ps : list string) (tas : list testAnalysis) :
  Permutation ps paths ->
  Forall2 (produces wPath useCache) ps tas ->
  execAllTests wPath paths useCache tas.
Proof.
  intros Hperm Hprod. unfold execAllTests. exists [].
  destruct paths as [|q qs].
  - apply Permutation_sym, Permutation_nil in Hperm. subst ps.
    inversion Hprod. constructor.
  - cbn [execAllTests_start].
    eapply steps_trans; [apply spawn_all|]. cbn [app].
    eapply steps_trans.
    { apply (send_all wPath useCache _ ps tas Hprod (q :: qs) [] [] []).
      - exact Hperm.
      - rewrite (Permutation_length Hperm). cbn. lia. }
    cbn [app]. eapply steps_step; [apply step_close|].
    eapply steps_trans; [apply recv_all|]. cbn [app].
    eapply steps_step; [apply step_return|]. constructor.
Qed.

(** The goroutines of [execAllTests] neither block one another nor run
    for ever, once the subprocesses have written their output: no sequence
    of their steps is infinite, and in every state they reach either
    [execAllTests] has returned, or a panic has ended the process, or one
    of them can take a step. *)
Theorem execAllTests_never_blocks (wPath : string) (paths : list string)
  (useCache : bool) :
  well_founded (fun st' st => step wPath useCache (length paths) st st')
  /\ (forall st,
        clos_refl_trans_1n proc (step wPath useCache (length paths))
          (execAllTests_start paths) st ->
        (exists rs pending, st = Exit rs pending)
        \/ (exists msg, st = Crash msg)
        \/ (exists st', step wPath useCache (length paths) st st')).
Proof.
  split.
  - apply (well_founded_lt_compat _ stepsLeft).
    intros st' st H. exact (step_stepsLeft _ _ _ _ _ H).
  - intros st Hrun.
    pose proof (accounted_steps wPath paths useCache _ _ _ Hrun
                  (accounted_start wPath paths useCache)) as Hacc.
    destruct st as [s|msg|rs pending].
    + right. right. eapply accounted_progress; eassumption.
    + right. left. eexists. reflexivity.
    + left. eexists. eexists. reflexivity.
Qed.

(** *** More on printing *)

(** In the summary the label is right-justified in its column: it is
    written after at least one space of padding, as many as the column is
    wider than the label has runes. *)
Theorem printSummary_label_right_justified
  (results : list testAnalysis) (ta : testAnalysis) :
  (forall s, (utf8_RuneCountInString s <= strings.len s)%Z) ->
  In ta results ->
  (getMaxLabel results <= 1000000)%Z ->
  (1 <= getMaxLabel results - utf8_RuneCountInString (label ta))%Z
  /\ exists icon rest,
       In icon [iconSkipped; iconFailure; iconSuccess]
       /\ printSummary ta (getMaxLabel results)
          = icon ++ " "
              ++ fmt.spaces
                   (getMaxLabel results - utf8_RuneCountInString (label ta))
              ++ label ta ++ rest.
Proof.
  intros Hcount Hin Hmax.
  assert (Hw : (strings.len (label ta) + 1 <= getMaxLabel results)%Z).
  { unfold getMaxLabel.
    destruct (getMaxLabel_fold_ge results 0) as [_ H].
    specialize (H ta Hin). lia. }
  specialize (Hcount (label ta)).
  pose proof (strings_len_nonneg (label ta)) as Hlen.
  split; [lia|].
  assert (Hlbl : fmt.star_s utf8_RuneCountInString (getMaxLabel results)
                   (label ta)
                 = fmt.spaces
                     (getMaxLabel results
                      - utf8_RuneCountInString (label ta))
                   ++ label ta).
  { unfold fmt.star_s, fmt.pad.
    destruct (Z.ltb_spec 1000000 (getMaxLabel results)); [lia|].
    destruct (Z.ltb_spec (getMaxLabel results) (-1000000)); [lia|].
    destruct (Z.ltb_spec (getMaxLabel results) 0); [lia|].
    cbn [orb].
    destruct (Z.leb_spec
                (getMaxLabel results - utf8_RuneCountInString (label ta)) 0);
      [lia | reflexivity]. }
  unfold printSummary. rewrite Hlbl.
  destruct (Total (testExec ta) =? 0)%Z;
    [|destruct ((len_ (Errors (testExec ta)) >? 0)%Z
                || (len_ (Failed (testExec ta)) >? 0)%Z)].
  - exists iconSkipped. eexists. split; [now left|].
    rewrite append_assoc. reflexivity.
  - exists iconFailure. eexists. split; [right; now left|].
    rewrite append_assoc. reflexivity.
  - exists iconSuccess. eexists. split; [right; right; now left|].
    rewrite append_assoc. reflexivity.
Qed.

Lemma forEach_returns (A : Type) (body : A -> IO unit) (l : list A) :
  snd (forEach body l) = Returned tt
  <-> forall x, In x l -> snd (body x) = Returned tt.
Proof.
  induction l as [|x l IH]; cbn [forEach].
  - split; [intros _ y [] | reflexivity].
  - unfold bind. destruct (body x) as [o [[]|msg]] eqn:E.
    + destruct (forEach body l) as [o' r]. cbn [snd] in *. rewrite IH.
      split.
      * intros H y [<-|Hy]; [now rewrite E | auto].
      * intros H y Hy. apply H. now right.
    + cbn [snd]. split; [discriminate|].
      intro H. specialize (H x (or_introl eq_refl)). rewrite E in H.
      exact H.
Qed.

Lemma printFailedDetail_returns (ta : testAnalysis) :
  snd (printFailedDetail ta) = Returned tt
  <-> (hasFailures ta = true -> (strings.len (label ta) <= 81)%Z).
Proof.
  unfold printFailedDetail, hasFailures, strings.Repeat.
  destruct ((len_ (Errors (testExec ta)) >? 0)%Z
            || (len_ (Failed (testExec ta)) >? 0)%Z).
  - destruct (Z.ltb_spec (Z.quot (80 - strings.len (label ta)) 2) 0)
      as [Hneg|Hpos]; cbn.
    + apply banner_count_negative in Hneg.
      split; [discriminate | intro H; specialize (H eq_refl); lia].
    + split; [|reflexivity]. intros _ _.
      destruct (Z_le_gt_dec (strings.len (label ta)) 81); [assumption|].
      exfalso. assert (H : (82 <= strings.len (label ta))%Z) by lia.
      apply banner_count_negative in H. lia.
  - cbn. split; [discriminate | reflexivity].
Qed.

(** [printResults] panics only when asked for the failure details, and
    then exactly when some record with an error or a failed test has a
    label of 82 bytes or more. *)
Theorem printResults_returns_iff
  (results : list testAnalysis) (displayFailures : bool) :
  snd (printResults results displayFailures) = Returned tt
  <-> (displayFailures = false
       \/ forall ta, In ta results -> hasFailures ta = true ->
            (strings.len (label ta) <= 81)%Z).
Proof using Type sort_Slice_perm.
  destruct results as [|r rs].
  - cbn. split; [|reflexivity]. intros _. right. intros ta [].
  - unfold printResults.
    set (sorted := sort_Slice lessLabel (r :: rs)).
    assert (Hperm : Permutation sorted (r :: rs))
      by apply sort_Slice_perm.
    unfold bind at 1. unfold print at 1.
    rewrite forEach_print. unfold bind at 1.
    destruct displayFailures.
    + unfold bind at 1. unfold print at 1.
      pose proof (forEach_returns _ printFailedDetail sorted) as Hall.
      destruct (forEach printFailedDetail sorted) as [o [[]|msg]];
        cbn [snd fst] in *.
      * split; [|reflexivity]. intros _. right. intros ta Hin.
        apply printFailedDetail_returns. apply (proj1 Hall eq_refl).
        eapply Permutation_in; [apply Permutation_sym; exact Hperm|].
        exact Hin.
      * split; [discriminate|]. intros [H|H]; [discriminate|].
        exfalso. assert (F : Panicked msg = Returned tt); [|discriminate F].
        apply Hall. intros ta Hin. apply printFailedDetail_returns.
        apply H. eapply Permutation_in; eassumption.
    + cbn. split; [|reflexivity]. intros _. now left.
Qed.

(** *** More on paths *)

(** The pattern the tests of a member are run with: the member path
    followed by three dots, which cleaning keeps. *)
Theorem execTest_pattern (rs : list string) (useCache : bool) :
  Forall (fun e => properName e = true) rs ->
  execTest (rootedPath rs) useCache
  = fst (exec_Output "go"
           (if useCache
            then ["test"; "-json"; rootedPath (rs ++ ["..."])]
            else ["test"; "-count=1"; "-json"; rootedPath (rs ++ ["..."])])).
Proof.
  intro Hrs.
  assert (E : filepath.Join (rootedPath rs) "..." = rootedPath (rs ++ ["..."])).
  { unfold filepath.Join.
    replace (String.eqb (rootedPath rs) "") with false by reflexivity.
    cbn [negb]. cbv iota.
    change (rootedPath rs ++ "/" ++ "...")
      with (rootedPath rs ++ String "/" "...").
    rewrite Clean_rooted_below by assumption.
    change (fold_left (filepath.cleanStep true) (filepath.splitSep "...")
              (rev rs))
      with ("..." :: rev rs).
    cbn [rev]. rewrite rev_involutive. reflexivity. }
  unfold execTest. rewrite E. destruct useCache; reflexivity.
Qed.

Lemma Join_listed (rs cs : list string) (dotSlash : bool) :
  Forall (fun e => properName e = true) rs ->
  Forall (fun e => properName e = true) cs ->
  cs <> [] ->
  filepath.Join (rootedPath rs)
    ((if dotSlash then "./" else "") ++ strings.Join cs "/")
  = rootedPath (rs ++ cs).
Proof.
  intros Hrs Hcs Hne. unfold filepath.Join.
  replace (String.eqb (rootedPath rs) "") with false by reflexivity.
  cbn [negb]. cbv iota.
  match goal with
  | |- filepath.Clean (_ ++ "/" ++ ?l) = _ =>
      change (filepath.Clean (rootedPath rs ++ String "/" l)
              = rootedPath (rs ++ cs))
  end.
  rewrite Clean_rooted_below by assumption.
  assert (E : fold_left (filepath.cleanStep true)
                (filepath.splitSep
                   ((if dotSlash then "./" else "") ++ strings.Join cs "/"))
                (rev rs)
              = (rev cs ++ rev rs)%list).
  { destruct dotSlash.
    - change ("./" ++ strings.Join cs "/")
        with ("." ++ String "/" (strings.Join cs "/")).
      rewrite splitSep_cons by reflexivity.
      cbn [fold_left].
      change (filepath.cleanStep true (rev rs) ".") with (rev rs).
      rewrite splitSep_Join by assumption.
      now apply clean_fold_proper.
    - cbn [append]. rewrite splitSep_Join by assumption.
      now apply clean_fold_proper. }
  rewrite E, <- rev_app_distr, rev_involutive. reflexivity.
Qed.

(** From the workspace file to the label: a member listed as [./a/b] or
    as [a/b] in the workspace file of a cleaned absolute directory gets the
    label [a/b]. *)
Theorem label_of_listed_member (rs cs : list string) (dotSlash : bool) :
  Forall (fun e => properName e = true) rs ->
  Forall (fun e => properName e = true) cs ->
  cs <> [] ->
  removeRelativePath (rootedPath rs)
    (filepath.Join (rootedPath rs)
       ((if dotSlash then "./" else "") ++ strings.Join cs "/"))
  = strings.Join cs "/".
Proof.
  intros Hrs Hcs Hne. rewrite Join_listed by assumption.
  unfold removeRelativePath.
  rewrite (Rel_below _ _ rs cs) by
    (assumption || (apply Clean_rootedPath; try assumption;
                    apply Forall_app; split; assumption)).
  destruct cs; [congruence | reflexivity].
Qed.

(** *** Members outside the workspace directory *)

Lemma Join_not_empty (es : list string) :
  Forall (fun e => properName e = true) es -> es <> [] ->
  strings.Join es "/" <> "".
Proof.
  intros H Hne E. destruct es as [|e es]; [congruence|].
  inversion H as [|? ? He _]; subst. apply length_proper in He.
  pose proof (length_Join_cons e es) as Hl. rewrite E in Hl.
  cbn [String.length] in Hl. lia.
Qed.

Lemma Join_inj (es fs : list string) :
  Forall (fun e => properName e = true) es ->
  Forall (fun e => properName e = true) fs ->
  strings.Join es "/" = strings.Join fs "/" -> es = fs.
Proof.
  intros He Hf E. destruct es as [|e es], fs as [|f fs].
  - reflexivity.
  - exfalso. symmetry in E. revert E. now apply Join_not_empty.
  - exfalso. revert E. now apply Join_not_empty.
  - rewrite <- (splitSep_Join (e :: es)), <- (splitSep_Join (f :: fs))
      by (assumption || discriminate).
    now rewrite E.
Qed.

Lemma CountByte_noSep (e : string) :
  noSep e = true -> strings.CountByte e filepath.Separator = 0.
Proof.
  induction e as [|c e IH]; [reflexivity|].
  cbn [noSep strings.CountByte].
  rewrite andb_true_iff, negb_true_iff. intros [Hc He].
  rewrite Hc, (IH He). reflexivity.
Qed.

Lemma CountByte_app (a b : string) (c : ascii) :
  strings.CountByte (a ++ b) c = strings.CountByte a c + strings.CountByte b c.
Proof.
  induction a as [|x a IH]; [reflexivity|].
  cbn [append strings.CountByte]. rewrite IH. lia.
Qed.

Lemma CountByte_Join (es : list string) :
  Forall (fun e => properName e = true) es ->
  strings.CountByte (strings.Join es "/") filepath.Separator = length es - 1.
Proof.
  induction 1 as [|e es He _ IH]; [reflexivity|].
  apply properName_inv in He. destruct He as [He _].
  destruct es as [|e' es].
  - cbn [strings.Join length]. rewrite CountByte_noSep by assumption. lia.
  - rewrite (Join_cons e (e' :: es)) by discriminate.
    rewrite CountByte_app, CountByte_noSep by assumption.
    change (strings.CountByte (String "/" (strings.Join (e' :: es) "/"))
              filepath.Separator)
      with (S (strings.CountByte (strings.Join (e' :: es) "/")
                 filepath.Separator)).
    rewrite IH. cbn [length]. lia.
Qed.

(** The loop of [Rel] on two paths that part after the elements [cs]:
    it stops with all of what follows [cs] left on both sides. *)
Lemma relLoop_parting (cs bs ts : list string) (fuel : nat) :
  Forall (fun e => properName e = true) cs ->
  Forall (fun e => properName e = true) bs ->
  Forall (fun e => properName e = true) ts ->
  bs <> [] ->
  hd_error ts <> hd_error bs ->
  String.length (strings.Join (cs ++ bs) "/") <= fuel ->
  exists eb,
    filepath.relLoop fuel (strings.Join (cs ++ bs) "/")
      (strings.Join (cs ++ ts) "/")
    = (eb, strings.Join bs "/", strings.Join ts "/")
    /\ eb <> "..".
Proof.
  intros Hcs Hbs Hts Hne Hhd. revert fuel.
  induction Hcs as [|c cs Hc _ IH]; intros fuel Hfuel.
  - cbn [app] in *.
    destruct bs as [|b bs]; [congruence|].
    inversion Hbs as [|? ? Hb Hbs']; subst.
    pose proof (length_proper b Hb) as Hlb.
    pose proof (length_Join_cons b bs) as Hl.
    destruct fuel as [|fuel]; [lia|].
    cbn [filepath.relLoop].
    assert (E1 : String.eqb (strings.Join (b :: bs) "/") "" = false).
    { apply String.eqb_neq. now apply Join_not_empty. }
    rewrite E1. cbn [orb].
    destruct ts as [|t ts].
    + exists "". split; [reflexivity | discriminate].
    + inversion Hts as [|? ? Ht Hts']; subst.
      assert (E2 : String.eqb (strings.Join (t :: ts) "/") "" = false).
      { apply String.eqb_neq. now apply Join_not_empty. }
      rewrite E2.
      apply properName_inv in Hb, Ht.
      rewrite !cutSep_Join by tauto.
      assert (E3 : String.eqb t b = false).
      { apply String.eqb_neq. intros ->. now apply Hhd. }
      rewrite E3. exists b. split; [reflexivity | tauto].
  - pose proof (length_proper c Hc) as Hlc.
    pose proof (length_Join_cons c (cs ++ bs)) as Hl.
    cbn [app] in *.
    destruct fuel as [|fuel]; [lia|].
    cbn [filepath.relLoop].
    assert (E1 : String.eqb (strings.Join (c :: cs ++ bs) "/") "" = false).
    { apply String.eqb_neq. intro E. rewrite E in Hl. cbn in Hl. lia. }
    assert (E2 : String.eqb (strings.Join (c :: cs ++ ts) "/") "" = false).
    { apply String.eqb_neq. intro E.
      pose proof (length_Join_cons c (cs ++ ts)) as Hl2.
      rewrite E in Hl2. cbn in Hl2. lia. }
    rewrite E1, E2. cbn [orb].
    apply properName_inv in Hc.
    rewrite !cutSep_Join by tauto.
    rewrite String.eqb_refl. apply IH. lia.
Qed.

Lemma dotdots_Join (n : nat) (ts : list string) :
  Forall (fun e => properName e = true) ts ->
  ".." ++ strings.repeat_nat "/.." n
       ++ (if negb (String.eqb (strings.Join ts "/") "")
           then "/" ++ strings.Join ts "/" else "")
  = strings.Join (repeat ".." (S n) ++ ts) "/".
Proof.
  intro Hts. induction n as [|n IH].
  - cbn [strings.repeat_nat repeat app]. destruct ts as [|t ts].
    + reflexivity.
    + replace (String.eqb (strings.Join (t :: ts) "/") "") with false
        by (symmetry; apply String.eqb_neq; apply Join_not_empty;
            [assumption | discriminate]).
      rewrite (Join_cons ".." (t :: ts)) by discriminate. reflexivity.
  - change (repeat ".." (S (S n)) ++ ts)%list
      with (".." :: (repeat ".." (S n) ++ ts))%list.
    rewrite (Join_cons ".." (repeat ".." (S n) ++ ts)) by discriminate.
    rewrite <- IH. reflexivity.
Qed.

(** The label of a member that is not under the workspace directory: one
    [..] for each element of the workspace path after the elements the two
    paths share, then the rest of the member path. *)
Theorem removeRelativePath_outside_root
  (wPath path : string) (cs bs ts : list string) :
  Forall (fun e => properName e = true) cs ->
  Forall (fun e => properName e = true) bs ->
  Forall (fun e => properName e = true) ts ->
  bs <> [] ->
  hd_error ts <> hd_error bs ->
  filepath.Clean wPath = rootedPath (cs ++ bs) ->
  filepath.Clean path = rootedPath (cs ++ ts) ->
  removeRelativePath wPath path
  = strings.Join (repeat ".." (length bs) ++ ts) "/".
Proof.
  intros Hcs Hbs Hts Hne Hhd Hw Hp.
  unfold removeRelativePath, filepath.Rel. rewrite Hw, Hp.
  assert (E : String.eqb (rootedPath (cs ++ ts)) (rootedPath (cs ++ bs))
              = false).
  { apply String.eqb_neq. unfold rootedPath. intro E. injection E as E.
    apply Join_inj in E; try (apply Forall_app; split; assumption).
    apply app_inv_head in E. subst ts. now apply Hhd. }
  rewrite E. unfold rootedPath, filepath.Separator.
  replace (String.eqb (String "/" (strings.Join (cs ++ bs) "/")) ".")
    with false by reflexivity.
  cbv iota.
  replace (filepath.isRooted (String "/" (strings.Join (cs ++ bs) "/")))
    with true by reflexivity.
  replace (filepath.isRooted (String "/" (strings.Join (cs ++ ts) "/")))
    with true by reflexivity.
  cbn [Bool.eqb negb]. cbv iota.
  cbn [String.length]. rewrite relLoop_rooted.
  destruct (relLoop_parting cs bs ts
              (String.length (strings.Join (cs ++ bs) "/"))
              Hcs Hbs Hts Hne Hhd (le_n _)) as (eb & -> & Heb).
  apply String.eqb_neq in Heb. rewrite Heb.
  replace (String.eqb (strings.Join bs "/") "") with false
    by (symmetry; apply String.eqb_neq; now apply Join_not_empty).
  cbn [negb]. rewrite CountByte_Join by assumption.
  rewrite dotdots_Join by assumption.
  replace (S (length bs - 1)) with (length bs)
    by (destruct bs; [congruence | cbn [length]; lia]).
  reflexivity.
Qed.

(** *** The whole program *)

Lemma steps_from_Exit (wPath : string) (useCache : bool) (cap : nat)
  (rs : list testAnalysis) (pending : list string) (st : proc) :
  clos_refl_trans_1n proc (step wPath useCache cap) (Exit rs pending) st ->
  st = Exit rs pending.
Proof.
  intro H. inversion H as [|y z Hstep _]; [reflexivity|]. inversion Hstep.
Qed.

(** Without members (no workspace file found, or one without a member)
    the program prints the line naming the workspace file and the timing
    line, nothing else, and ends normally.  When no workspace file was
    found the path in the first line is empty: the line reads
    [Using /go.work file]. *)
Theorem main_without_members
  (fs : FS) (showFailures useCache : bool) (elapsed : Z)
  (wPath : string) (log : list string) (io : IO unit) :
  getWorkspacePaths fs = Some (wPath, [], log) ->
  (main fs showFailures useCache elapsed io
   <-> io = ("Using " ++ wPath ++ "/go.work file" ++ NL ++ exeTime elapsed,
             Returned tt)).
Proof.
  intro Hwd. split.
  - intro H.
    destruct H as [w ps lg rs Hg [pending Hrun] | w ps lg msg Hg Hrun
                   | w ps lg rs pending msg out Hg Hrun Hin Hout];
      rewrite Hwd in Hg; injection Hg as E1 E2 E3; subst w ps lg.
    + apply steps_from_Exit in Hrun. injection Hrun as -> ->.
      cbn [printResults ret fst snd]. rewrite !append_assoc. reflexivity.
    + apply steps_from_Exit in Hrun. discriminate Hrun.
    + apply steps_from_Exit in Hrun. injection Hrun as -> ->.
      destruct Hin.
  - intros ->.
    pose proof (main_done fs showFailures useCache elapsed wPath [] log []
                  Hwd) as H.
    cbn [printResults ret fst snd] in H. rewrite !append_assoc in H.
    apply H. exists []. constructor.
Qed.

Lemma getMaxLabel_Permutation (l l' : list testAnalysis) :
  Permutation l l' -> getMaxLabel l = getMaxLabel l'.
Proof.
  assert (Hle : forall a b : list testAnalysis,
             Permutation a b -> (getMaxLabel a <= getMaxLabel b)%Z).
  { intros a b Hp. unfold getMaxLabel.
    destruct (getMaxLabel_fold_ge b 0) as [Hb0 Hb].
    destruct (getMaxLabel_fold_attained a 0) as [E|[ta [Hin E]]];
      rewrite E; [lia|].
    specialize (Hb ta (Permutation_in _ Hp Hin)). lia. }
  intro Hp. apply Z.le_antisymm; apply Hle;
    [assumption | now apply Permutation_sym].
Qed.

(** Records with distinct labels are determined by their labels. *)
Lemma same_labels_same_records (l1 l2 : list testAnalysis) :
  Permutation l1 l2 ->
  NoDup (map label l1) ->
  map label l1 = map label l2 ->
  l1 = l2.
Proof.
  revert l2. induction l1 as [|a l1 IH]; intros l2 Hp Hnd Hl.
  - destruct l2; [reflexivity | discriminate].
  - destruct l2 as [|b l2]; [discriminate|].
    cbn [map] in Hl, Hnd. injection Hl as Hab Hl.
    inversion Hnd as [|? ? Hnotin Hnd']; subst.
    assert (E : a = b).
    { assert (Hin : In a (b :: l2))
        by (eapply Permutation_in; [exact Hp | now left]).
      destruct Hin as [E|Hin]; [now symmetry|].
      exfalso. apply Hnotin. rewrite Hl. now apply in_map. }
    subst b. f_equal. apply IH; [|assumption|assumption].
    eapply Permutation_cons_inv. exact Hp.
Qed.

(** What [printResults] writes does not depend on the order in which the
    records came back, when their labels are distinct. *)
Theorem printResults_order_independent
  (rs rs' : list testAnalysis) (displayFailures : bool) :
  Permutation rs rs' ->
  NoDup (map label rs) ->
  printResults rs displayFailures = printResults rs' displayFailures.
Proof using Type sort_Slice_perm sort_Slice_sorted.
  intros Hp Hnd.
  assert (Hsort : sort_Slice lessLabel rs = sort_Slice lessLabel rs').
  { pose proof (sort_Slice_perm lessLabel rs) as P1.
    pose proof (sort_Slice_perm lessLabel rs') as P2.
    assert (P : Permutation (sort_Slice lessLabel rs)
                  (sort_Slice lessLabel rs')).
    { eapply Permutation_trans; [exact P1|].
      eapply Permutation_trans; [exact Hp|]. now apply Permutation_sym. }
    apply same_labels_same_records; [exact P | |].
    - eapply Permutation_NoDup; [|exact Hnd].
      apply Permutation_map. now apply Permutation_sym.
    - apply sorted_labels_unique.
      + apply StronglySorted_map.
        exact (sort_Slice_sorted lessLabel rs lessLabel_strictWeak).
      + apply StronglySorted_map.
        exact (sort_Slice_sorted lessLabel rs' lessLabel_strictWeak).
      + now apply Permutation_map. }
  destruct rs as [|r rs], rs' as [|r' rs'].
  - reflexivity.
  - apply Permutation_nil in Hp. discriminate.
  - apply Permutation_sym, Permutation_nil in Hp. discriminate.
  - unfold printResults. rewrite Hsort. reflexivity.
Qed.

Lemma execAllTests_in_order (wPath : string) (paths : list string)
  (useCache : bool) (tas : list testAnalysis) :
  Forall2 (produces wPath useCache) paths tas ->
  execAllTests wPath paths useCache tas.
Proof.
  intro H. unfold execAllTests. exists []. destruct paths as [|p ps].
  - inversion H. constructor.
  - cbn [execAllTests_start].
    eapply steps_trans;
      [apply run_one_by_one; [cbn [length]; lia | exact H]|].
    cbn [app]. eapply steps_step; [apply step_close|].
    eapply steps_step; [apply step_return|]. constructor.
Qed.

End Repotest.

(** ** The sample sort meets the contract of [sort.Slice] *)

Lemma Sample_insert_perm (A : Type) (less : A -> A -> bool) (x : A)
  (l : list A) :
  Permutation (Sample.insert less x l) (x :: l).
Proof.
  induction l as [|y l IH]; simpl; [apply Permutation_refl|].
  destruct (less x y); [apply Permutation_refl|].
  apply Permutation_trans with (y :: x :: l).
  - now apply perm_skip.
  - apply perm_swap.
Qed.

Lemma Sample_sort_perm (A : Type) (less : A -> A -> bool) (l : list A) :
  Permutation (Sample.sort less l) l.
Proof.
  induction l as [|x l IH]; simpl; [constructor|].
  apply Permutation_trans with (x :: Sample.sort less l).
  - apply Sample_insert_perm.
  - now apply perm_skip.
Qed.

Lemma Sample_insert_sorted (A : Type) (less : A -> A -> bool) (x : A)
  (l : list A) :
  strictWeak less ->
  StronglySorted (fun a b => less b a = false) l ->
  StronglySorted (fun a b => less b a = false) (Sample.insert less x l).
Proof.
  intros (Hirr & Htr & Hneg) Hs.
  induction Hs as [|y l Hs IH Hy]; simpl.
  - constructor; constructor.
  - destruct (less x y) eqn:E.
    + assert (Hyx : less y x = false).
      { destruct (less y x) eqn:F; [|reflexivity].
        pose proof (Htr _ _ _ E F) as G. now rewrite Hirr in G. }
      constructor; [constructor; assumption|].
      constructor; [assumption|].
      eapply Forall_impl; [|exact Hy]. intros z Hz. simpl in Hz.
      exact (Hneg _ _ _ Hz Hyx).
    + constructor; [exact IH|].
      eapply Permutation_Forall.
      * apply Permutation_sym, Sample_insert_perm.
      * constructor; assumption.
Qed.

Lemma Sample_sort_sorted (A : Type) (less : A -> A -> bool) (l : list A) :
  strictWeak less ->
  StronglySorted (fun a b => less b a = false) (Sample.sort less l).
Proof.
  intro H. induction l as [|x l IH]; simpl; [constructor|].
  now apply Sample_insert_sorted.
Qed.

(** ** The properties on the sample inputs *)

(** The workspace file of [/w]: the two members and, for the blank line
    between them, the workspace directory itself. *)
Lemma readWorkspaceFile_use_block_witness :
  fst (readWorkspaceFile Sample.TrimSpace Example.fsWorkspace "/w" "go.work")
  = ["/w/pkgA"; "/w"; "/w/pkgB"].
Proof.
  apply (readWorkspaceFile_use_block Sample.TrimSpace Example.fsWorkspace
           "/w" "go.work" (mkFile Example.goWork None None)
           ["go 1.18"; ""] ["  ./pkgA"; ""; "  ./pkgB"] [")"] "use (").
  - reflexivity.
  - reflexivity.
  - reflexivity.
  - repeat constructor.
  - reflexivity.
  - repeat constructor.
Defined.

(** C1 as stated fails: an interior line that contains a closing
    parenthesis is not returned. *)
Lemma readWorkspaceFile_drops_paren_line :
  bufio.ScanLines Example.goWorkParen = ["use ("; "  ./a"; "  ./b(c)"; ")"]
  /\ fst (readWorkspaceFile Sample.TrimSpace Example.fsParen "/w" "go.work")
     = ["/w/a"]
  /\ fst (readWorkspaceFile Sample.TrimSpace Example.fsParen "/w" "go.work")
     <> map (fun l => filepath.Join "/w" (Sample.TrimSpace l))
          ["  ./a"; "  ./b(c)"].
Proof.
  split; [reflexivity|]. split; [reflexivity|].
  vm_compute. discriminate.
Qed.

(** From [/a] the workspace file of the root directory is not found. *)
Lemma getWorkspacePaths_root_not_listed_witness :
  hasWorkFile Example.fsRoot "/"
  /\ getWorkspacePaths Sample.TrimSpace Example.fsRoot = Some ("", [], []).
Proof.
  split.
  - exists ["a"; "go.work"]. split; [reflexivity | right; left; reflexivity].
  - apply (getWorkspacePaths_root_not_listed Sample.TrimSpace Example.fsRoot
             ["a"]).
    + discriminate.
    + repeat constructor.
    + reflexivity.
    + intros b1 b2 E Hne.
      destruct b1 as [|x [|y b1]]; [congruence | | destruct b1; discriminate].
      injection E as <- _.
      exists ["main.go"]. split; [reflexivity|].
      intros [H|[]]. discriminate H.
Defined.

(** The three icons. *)
Lemma printSummary_icon_witness :
  strings.HasPrefix
    (printSummary Sample.RuneCountInString Sample.Exec Sample.total
       Sample.errors Sample.failed Sample.elapsed
       Sample.FormatDurationAsSeconds Example.skipped 5)
    iconSkipped = true
  /\ strings.HasPrefix
       (printSummary Sample.RuneCountInString Sample.Exec Sample.total
          Sample.errors Sample.failed Sample.elapsed
          Sample.FormatDurationAsSeconds Example.failing 5)
       iconFailure = true
  /\ strings.HasPrefix
       (printSummary Sample.RuneCountInString Sample.Exec Sample.total
          Sample.errors Sample.failed Sample.elapsed
          Sample.FormatDurationAsSeconds Example.passed 5)
       iconSuccess = true.
Proof.
  split; [|split].
  - rewrite (proj1 (printSummary_icon Sample.RuneCountInString Sample.Exec
                      Sample.total Sample.errors Sample.failed Sample.elapsed
                      Sample.FormatDurationAsSeconds Example.skipped 5))
      by reflexivity.
    reflexivity.
  - rewrite (proj1 (proj2 (printSummary_icon Sample.RuneCountInString
                             Sample.Exec Sample.total Sample.errors
                             Sample.failed Sample.elapsed
                             Sample.FormatDurationAsSeconds
                             Example.failing 5)))
      by (reflexivity || (right; reflexivity)).
    reflexivity.
  - rewrite (proj2 (proj2 (printSummary_icon Sample.RuneCountInString
                             Sample.Exec Sample.total Sample.errors
                             Sample.failed Sample.elapsed
                             Sample.FormatDurationAsSeconds
                             Example.passed 5)))
      by reflexivity.
    reflexivity.
Defined.

(** Two members, the subprocess of one of which fails: two records.  Two
    members, the output of one of which cannot be parsed: fewer than two
    records in what is returned. *)
Lemma execAllTests_one_record_per_path_witness :
  ((exists rs,
      execAllTests Sample.Exec Sample.ScanTestOutput Example.goTest "/w"
        ["/w/pkgA"; "/w/pkgB"] true rs)
   /\ (forall rs,
         execAllTests Sample.Exec Sample.ScanTestOutput Example.goTest "/w"
           ["/w/pkgA"; "/w/pkgB"] true rs ->
         length rs = 2))
  /\ (forall rs,
        execAllTests Sample.Exec Sample.ScanTestOutput Example.goTest "/w"
          ["/w/pkgA"; "/w/broken"] true rs ->
        length rs < 2).
Proof.
  split.
  - destruct (execAllTests_one_record_per_path Sample.Exec
                Sample.ScanTestOutput Example.goTest "/w"
                ["/w/pkgA"; "/w/pkgB"] true) as [H _]; [discriminate|].
    destruct H as (H1 & H2 & _).
    + intros p [<-|[<-|[]]]; eexists; vm_compute; reflexivity.
    + split; [exact H1|]. intros rs Hrs. exact (proj1 (H2 rs Hrs)).
  - destruct (execAllTests_one_record_per_path Sample.Exec
                Sample.ScanTestOutput Example.goTest "/w"
                ["/w/pkgA"; "/w/broken"] true) as [_ H]; [discriminate|].
    destruct (H "/w/broken" "failed to parse test output: {")
      as (_ & _ & H3).
    + right. left. reflexivity.
    + reflexivity.
    + intros rs Hrs. exact (proj1 (H3 rs Hrs)).
Defined.

(** C4 as stated fails: with a member whose output cannot be parsed, no
    run of [execAllTests] returns a record for it.  Here the only member is
    such a one: a run can return the empty slice, and the panic of the
    worker can end the process. *)
Lemma execAllTests_unparsable_no_record :
  ["/w/broken"] <> []
  /\ (~ exists rs,
          execAllTests Sample.Exec Sample.ScanTestOutput Example.goTest "/w"
            ["/w/broken"] true rs
          /\ length rs = length ["/w/broken"])
  /\ execAllTests Sample.Exec Sample.ScanTestOutput Example.goTest "/w"
       ["/w/broken"] true []
  /\ clos_refl_trans_1n (proc Sample.Exec)
       (step Sample.Exec Sample.ScanTestOutput Example.goTest "/w" true
          (length ["/w/broken"]))
       (execAllTests_start Sample.Exec ["/w/broken"])
       (Crash Sample.Exec
          "failed to scan testjson: failed to parse test output: {").
Proof.
  assert (Hw : panicsWith Sample.Exec Sample.ScanTestOutput Example.goTest
                 "/w" true "/w/broken"
                 "failed to scan testjson: failed to parse test output: {")
    by reflexivity.
  split; [discriminate|]. split; [|split].
  - intros (rs & Hrun & Hlen).
    destruct (execAllTests_returned _ _ _ _ _ _ _ Hrun)
      as (ps & qs & Hp & Hf & _).
    assert (Hps : length ps = 1).
    { rewrite (Forall2_length Hf). exact Hlen. }
    destruct ps as [|p [|p' ps]]; try discriminate Hps.
    inversion Hf as [|? ta ? ? Hprod _]; subst.
    assert (Hin : In p ["/w/broken"]).
    { eapply Permutation_in; [exact Hp | now left]. }
    destruct Hin as [<-|[]].
    unfold produces in Hprod. unfold panicsWith in Hw. congruence.
  - exists ["failed to scan testjson: failed to parse test output: {"].
    cbn [execAllTests_start length].
    eapply steps_step; [apply step_spawn|]. cbn [app].
    eapply steps_step.
    { apply (step_panic _ _ _ _ _ _ "/w/broken" [] [] [] [] false [] []
               _ Hw). }
    cbn [app]. eapply steps_step; [apply step_close|].
    eapply steps_step; [apply step_return|]. constructor.
  - apply execAllTests_can_crash with (p := "/w/broken");
      [now left | exact Hw].
Qed.

(** An output that is no event makes [analyzeTest] panic. *)
Lemma analyzeTest_panics_witness :
  analyzeTest Sample.Exec Sample.ScanTestOutput "/w" "/w/broken" ("{" ++ NL)
  = Panicked "failed to scan testjson: failed to parse test output: {".
Proof.
  apply (analyzeTest_panics Sample.Exec Sample.ScanTestOutput "/w"
           "/w/broken" ("{" ++ NL) "failed to parse test output: {").
  reflexivity.
Defined.

(** Records labelled b, a, c are presented in the order a, b, c. *)
Lemma printResults_sorted_by_label_witness :
  exists presented,
    Permutation presented
      [Example.record 1 [] [] "b"; Example.record 1 [] [] "a";
       Example.record 1 [] [] "c"]
    /\ map label presented = ["a"; "b"; "c"].
Proof.
  destruct (printResults_sorted_by_label Sample.RuneCountInString Sample.Exec
              Sample.total Sample.errors Sample.failed Sample.elapsed
              Sample.FormatDurationAsSeconds Sample.PrintSummary
              (Sample.sort (A:=testAnalysis Sample.Exec))
              (Sample_sort_perm _) (Sample_sort_sorted _)
              [Example.record 1 [] [] "b"; Example.record 1 [] [] "a";
               Example.record 1 [] [] "c"] false)
    as (presented & Hperm & _ & _ & Hlabels).
  exists presented. split; [exact Hperm|]. apply Hlabels. reflexivity.
Defined.

(** Labels of 3, 7 and 1 bytes: the column has 8. *)
Lemma getMaxLabel_longest_plus_one_witness :
  getMaxLabel Sample.Exec
    [Example.record 1 [] [] "abc"; Example.record 1 [] [] "abcdefg";
     Example.record 1 [] [] "x"] = 8%Z.
Proof.
  destruct (getMaxLabel_longest_plus_one Sample.Exec
              [Example.record 1 [] [] "abc"; Example.record 1 [] [] "abcdefg";
               Example.record 1 [] [] "x"]) as (_ & _ & H).
  - discriminate.
  - apply H. reflexivity.
Defined.

(** The label of [/w/pkgA/sub] in the workspace [/w]. *)
Lemma removeRelativePath_under_root_witness :
  removeRelativePath "/w" "/w/pkgA/sub" = "pkgA/sub"
  /\ filepath.Join (filepath.Clean "/w") (removeRelativePath "/w" "/w/pkgA/sub")
     = filepath.Clean "/w/pkgA/sub".
Proof.
  apply (removeRelativePath_under_root "/w" "/w/pkgA/sub" ["w"]
           ["pkgA"; "sub"]).
  - repeat constructor.
  - repeat constructor.
  - reflexivity.
  - reflexivity.
Defined.

(** A workspace file without a block: no package, nothing logged. *)
Lemma readWorkspaceFile_no_block_witness :
  fst (readWorkspaceFile Sample.TrimSpace Example.fsNoBlock "/w" "go.work")
  = []
  /\ snd (readWorkspaceFile Sample.TrimSpace Example.fsNoBlock "/w" "go.work")
     = [].
Proof.
  apply (readWorkspaceFile_no_block Sample.TrimSpace Example.fsNoBlock "/w"
           "go.work" (mkFile Example.goWorkNoBlock None None)).
  - reflexivity.
  - intros line [<-|[]]. reflexivity.
Defined.

(** A failing record with a label of 82 bytes panics, one of 81 does
    not. *)
Lemma printFailedDetail_panics_from_82_witness :
  printFailedDetail Sample.Exec Sample.errors Sample.failed
    Sample.PrintSummary Example.failingLong
  = ("", Panicked "strings: negative Repeat count")
  /\ exists out,
       printFailedDetail Sample.Exec Sample.errors Sample.failed
         Sample.PrintSummary Example.failing81
       = (out, Returned tt).
Proof.
  split.
  - apply (proj1 (printFailedDetail_panics_from_82 Sample.Exec Sample.errors
                    Sample.failed Sample.PrintSummary Example.failingLong
                    (or_intror eq_refl))).
    vm_compute. discriminate.
  - apply (proj2 (printFailedDetail_panics_from_82 Sample.Exec Sample.errors
                    Sample.failed Sample.PrintSummary Example.failing81
                    (or_intror eq_refl))).
    vm_compute. discriminate.
Defined.

(** ** The error of the subprocess is not looked at *)

Lemma step_same_output
  (Execution : Type) (scan : string -> result Execution)
  (out1 out2 : string -> list string -> string * option string)
  (wPath : string) (useCache : bool) (cap : nat)
  (st st' : proc Execution) :
  (forall name args, fst (out1 name args) = fst (out2 name args)) ->
  step Execution scan out1 wPath useCache cap st st' ->
  step Execution scan out2 wPath useCache cap st st'.
Proof.
  intros Hsame H.
  assert (Hw : forall p,
             worker Execution scan out1 wPath useCache p
             = worker Execution scan out2 wPath useCache p).
  { intro p. unfold worker, execTest.
    destruct useCache; rewrite Hsame; reflexivity. }
  destruct H as [p ps rn ch cl rs pn | p r1 r2 ps ch cl rs pn ta Hp Hcap
                 | p r1 r2 ps ch cl rs pn msg Hp | s msg Hin | ch rs pn
                 | ps rn ta ch cl rs pn | ps rn rs pn].
  - apply step_spawn.
  - apply step_send; [|assumption]. now rewrite <- Hw.
  - apply step_panic. now rewrite <- Hw.
  - apply step_crash. assumption.
  - apply step_close.
  - apply step_recv.
  - apply step_return.
Qed.

(** Whether the subprocesses succeed or fail makes no difference: two
    environments in which they write the same bytes to standard output give
    the same results. *)
Theorem execAllTests_ignores_exit_status
  (Execution : Type) (scan : string -> result Execution)
  (out1 out2 : string -> list string -> string * option string)
  (wPath : string) (paths : list string) (useCache : bool)
  (rs : list (testAnalysis Execution)) :
  (forall name args, fst (out1 name args) = fst (out2 name args)) ->
  execAllTests Execution scan out1 wPath paths useCache rs ->
  execAllTests Execution scan out2 wPath paths useCache rs.
Proof.
  intros Hsame. unfold execAllTests. intros [pending H]. exists pending.
  revert H. generalize (execAllTests_start Execution paths).
  intros st H. induction H as [|x y z Hxy _ IH]; [constructor|].
  econstructor; [|exact IH].
  eapply step_same_output; eassumption.
Qed.

(** ** Further properties on the sample inputs *)

(** From [/w/pkgA] the workspace file of [/w] is found. *)
Lemma getWorkspacePaths_nearest_witness :
  getWorkspacePaths Sample.TrimSpace Example.fsWorkspace
  = Some ("/w", ["/w/pkgA"; "/w"; "/w/pkgB"], []).
Proof.
  apply (getWorkspacePaths_nearest Sample.TrimSpace Example.fsWorkspace
           ["w"] ["pkgA"]).
  - reflexivity.
  - left. discriminate.
  - repeat constructor.
  - intros b1 b2 E Hne.
    destruct b1 as [|x [|y b1]]; [congruence | | destruct b1; discriminate].
    injection E as <- _.
    exists ["a.go"; "a_test.go"]. split; [reflexivity|].
    intros [H|[H|[]]]; discriminate H.
  - exists ["go.work"; "pkgA"; "pkgB"]. split; [reflexivity | now left].
Defined.

(** [/w/x] cannot be listed: the workspace file of [/w] is not reached. *)
Lemma getWorkspacePaths_listing_error_witness :
  getWorkspacePaths Sample.TrimSpace Example.fsUnreadable
  = Some ("", [], ["open /w/x: permission denied"]).
Proof.
  apply (getWorkspacePaths_listing_error Sample.TrimSpace
           Example.fsUnreadable ["w"; "x"] ["y"]).
  - reflexivity.
  - left. discriminate.
  - repeat constructor.
  - intros b1 b2 E Hne.
    destruct b1 as [|x [|y b1]]; [congruence | | destruct b1; discriminate].
    injection E as <- _.
    exists ["y.go"]. split; [reflexivity|].
    intros [H|[]]. discriminate H.
  - reflexivity.
Defined.

(** The directive after the block is returned as a member. *)
Lemma readWorkspaceFile_from_opening_witness :
  fst (readWorkspaceFile Sample.TrimSpace Example.fsTrailing "/w" "go.work")
  = ["/w/pkgA"; "/w"; "/w/replace example.com/x => ./x"].
Proof.
  apply (readWorkspaceFile_from_opening Sample.TrimSpace Example.fsTrailing
           "/w" "go.work" (mkFile Example.goWorkTrailing None None)
           [] ["  ./pkgA"; ")"; ""; "replace example.com/x => ./x"] "use (").
  - reflexivity.
  - reflexivity.
  - reflexivity.
  - constructor.
  - reflexivity.
Defined.

(** The member [/w/pkgA] comes from a line of the file after the opening
    line. *)
Lemma readWorkspaceFile_members_from_lines_witness :
  exists f pre opening rest line,
    Open Example.fsWorkspace (filepath.Join "/w" "go.work") = Ok f
    /\ scanner_Err f = None
    /\ bufio.ScanLines (fileData f) = (pre ++ opening :: rest)%list
    /\ Forall (fun l => strings.HasPrefix l "use (" = false) pre
    /\ strings.HasPrefix opening "use (" = true
    /\ In line rest
    /\ strings.Contains line ")" = false
    /\ "/w/pkgA" = filepath.Join "/w" (Sample.TrimSpace line).
Proof.
  apply (readWorkspaceFile_members_from_lines Sample.TrimSpace
           Example.fsWorkspace "/w" "go.work" "/w/pkgA").
  left. reflexivity.
Defined.

Lemma rawLines_line (l rest : string) :
  strings.CountByte l bufio.LF = 0 ->
  bufio.rawLines (l ++ String bufio.LF rest) = l :: bufio.rawLines rest.
Proof.
  induction l as [|c l IH]; cbn [append strings.CountByte bufio.rawLines].
  - intros _. rewrite Ascii.eqb_refl. reflexivity.
  - destruct (Ascii.eqb c bufio.LF); [discriminate|].
    intro H. rewrite (IH H). reflexivity.
Qed.

Lemma CountByte_repeat_x (n : nat) :
  strings.CountByte (strings.repeat_nat "x" n) bufio.LF = 0.
Proof. induction n as [|n IH]; [reflexivity | exact IH]. Qed.

Lemma length_repeat_x (n : nat) :
  String.length (strings.repeat_nat "x" n) = n.
Proof. induction n as [|n IH]; [reflexivity | cbn; now rewrite IH]. Qed.

Lemma rawLines_goWorkLong :
  bufio.rawLines Example.goWorkLong
  = ["use ("; "  ./pkgA"; Example.longLine; ")"].
Proof.
  change Example.goWorkLong
    with ("use (" ++ String bufio.LF
            ("  ./pkgA" ++ String bufio.LF
               (Example.longLine ++ String bufio.LF
                  (")" ++ String bufio.LF "")))).
  rewrite !rawLines_line;
    [reflexivity | reflexivity | apply CountByte_repeat_x | reflexivity
     | reflexivity].
Qed.

(** With a line of 65536 bytes in the block nothing is returned. *)
Lemma readWorkspaceFile_line_too_long_witness :
  readWorkspaceFile Sample.TrimSpace Example.fsLong "/w" "go.work"
  = ([], [bufio.ErrTooLong]).
Proof.
  apply (readWorkspaceFile_line_too_long Sample.TrimSpace Example.fsLong
           "/w" "go.work" (mkFile Example.goWorkLong None None)
           Example.longLine).
  - reflexivity.
  - cbn [fileData]. rewrite rawLines_goWorkLong. right. right. now left.
  - unfold strings.len, Example.longLine. rewrite length_repeat_x.
    rewrite Z2Nat.id by discriminate. discriminate.
Defined.

(** The results of [goTest], whose second subprocess fails, are results
    of the subprocess that writes the same and does not fail. *)
Lemma execAllTests_ignores_exit_status_witness :
  execAllTests Sample.Exec Sample.ScanTestOutput Example.goTestQuiet "/w"
    ["/w/pkgA"; "/w/pkgB"] true [Example.resultA; Example.resultB].
Proof.
  apply (execAllTests_ignores_exit_status Sample.Exec Sample.ScanTestOutput
           Example.goTest Example.goTestQuiet).
  - reflexivity.
  - apply execAllTests_in_order.
    constructor; [reflexivity|]. constructor; [reflexivity | constructor].
Defined.

(** The record of [pkgB] can come back before that of [pkgA]. *)
Lemma execAllTests_any_order_witness :
  execAllTests Sample.Exec Sample.ScanTestOutput Example.goTest "/w"
    ["/w/pkgA"; "/w/pkgB"] true [Example.resultB; Example.resultA].
Proof.
  apply (execAllTests_any_order Sample.Exec Sample.ScanTestOutput
           Example.goTest "/w" ["/w/pkgA"; "/w/pkgB"] true
           ["/w/pkgB"; "/w/pkgA"]).
  - apply perm_swap.
  - constructor; [reflexivity|]. constructor; [reflexivity | constructor].
Defined.

(** The label of [/w/b/c] in the workspace [/w/a], and that of [/w] in
    the workspace [/w/a/b]. *)
Lemma removeRelativePath_outside_root_witness :
  removeRelativePath "/w/a" "/w/b/c" = "../b/c"
  /\ removeRelativePath "/w/a/b" "/w" = "../..".
Proof.
  split.
  - apply (removeRelativePath_outside_root "/w/a" "/w/b/c" ["w"] ["a"]
             ["b"; "c"]); try (repeat constructor); try discriminate.
  - apply (removeRelativePath_outside_root "/w/a/b" "/w" ["w"] ["a"; "b"]
             []); try (repeat constructor); try discriminate.
Defined.

(** The label [pkgA] in a column of 5: one space of padding. *)
Lemma printSummary_label_right_justified_witness :
  exists icon rest,
    In icon [iconSkipped; iconFailure; iconSuccess]
    /\ printSummary Sample.RuneCountInString Sample.Exec Sample.total
         Sample.errors Sample.failed Sample.elapsed
         Sample.FormatDurationAsSeconds Example.passed 5
       = icon ++ " " ++ fmt.spaces 1 ++ "pkgA" ++ rest.
Proof.
  apply (printSummary_label_right_justified Sample.RuneCountInString
           Sample.Exec Sample.total Sample.errors Sample.failed
           Sample.elapsed Sample.FormatDurationAsSeconds
           [Example.passed; Example.failing; Example.skipped]
           Example.passed).
  - intro s. unfold Sample.RuneCountInString. lia.
  - left. reflexivity.
  - vm_compute. discriminate.
Defined.

(** With labels shorter than 82 bytes the failure details are printed
    without a panic. *)
Lemma printResults_returns_iff_witness :
  snd (printResults Sample.RuneCountInString Sample.Exec Sample.total
         Sample.errors Sample.failed Sample.elapsed
         Sample.FormatDurationAsSeconds Sample.PrintSummary
         (Sample.sort (A:=testAnalysis Sample.Exec))
         [Example.passed; Example.failing] true)
  = Returned tt.
Proof.
  apply (printResults_returns_iff Sample.RuneCountInString Sample.Exec
           Sample.total Sample.errors Sample.failed Sample.elapsed
           Sample.FormatDurationAsSeconds Sample.PrintSummary
           (Sample.sort (A:=testAnalysis Sample.Exec))
           (Sample_sort_perm _)).
  right. intros ta [<-|[<-|[]]] _; vm_compute; discriminate.
Defined.

(** The tests of [/w/pkgA] are run with the pattern [/w/pkgA/...]. *)
Lemma execTest_pattern_witness :
  execTest Example.goTest "/w/pkgA" true
  = fst (Example.goTest "go" ["test"; "-json"; "/w/pkgA/..."]).
Proof.
  apply (execTest_pattern Example.goTest ["w"; "pkgA"] true).
  repeat constructor.
Defined.

(** The member listed as [./pkgA] in [/w/go.work] has the label
    [pkgA]. *)
Lemma label_of_listed_member_witness :
  removeRelativePath "/w" (filepath.Join "/w" "./pkgA") = "pkgA".
Proof.
  apply (label_of_listed_member ["w"] ["pkgA"] true);
    try (repeat constructor); discriminate.
Defined.

(** Without a workspace file the program names [/go.work]. *)
Lemma main_without_members_witness :
  main Sample.TrimSpace Sample.RuneCountInString Sample.Exec Sample.total
    Sample.errors Sample.failed Sample.elapsed Sample.ScanTestOutput
    Sample.FormatDurationAsSeconds Sample.PrintSummary Example.goTest
    (Sample.sort (A:=testAnalysis Sample.Exec))
    Example.fsNone false true 0
    ("Using /go.work file" ++ NL
       ++ exeTime Sample.FormatDurationAsSeconds 0,
     Returned tt).
Proof.
  apply (main_without_members Sample.TrimSpace Sample.RuneCountInString
           Sample.Exec Sample.total Sample.errors Sample.failed
           Sample.elapsed Sample.ScanTestOutput
           Sample.FormatDurationAsSeconds Sample.PrintSummary Example.goTest
           (Sample.sort (A:=testAnalysis Sample.Exec))
           Example.fsNone false true 0 "" []).
  - reflexivity.
  - reflexivity.
Defined.

(** The summary of two records is the same in either order. *)
Lemma printResults_order_independent_witness :
  printResults Sample.RuneCountInString Sample.Exec Sample.total
    Sample.errors Sample.failed Sample.elapsed
    Sample.FormatDurationAsSeconds Sample.PrintSummary
    (Sample.sort (A:=testAnalysis Sample.Exec))
    [Example.failing; Example.passed] true
  = printResults Sample.RuneCountInString Sample.Exec Sample.total
      Sample.errors Sample.failed Sample.elapsed
      Sample.FormatDurationAsSeconds Sample.PrintSummary
      (Sample.sort (A:=testAnalysis Sample.Exec))
      [Example.passed; Example.failing] true.
Proof.
  apply (printResults_order_independent Sample.RuneCountInString Sample.Exec
           Sample.total Sample.errors Sample.failed Sample.elapsed
           Sample.FormatDurationAsSeconds Sample.PrintSummary
           (Sample.sort (A:=testAnalysis Sample.Exec))
           (Sample_sort_perm _) (Sample_sort_sorted _)).
  - apply perm_swap.
  - repeat constructor; simpl; intuition discriminate.
Defined.
